(** * SPT-LiveFleaPrices: the fetch / retry / clamp / apply cycle

    A shallow embedding of [src/mod.ts] (class [Mod]) and of the second
    revision of the same file found in the repository, together with
    the properties of its specification.

    Conventions of the embedding.
    - A JavaScript [number] that holds a price is an IEEE 754 binary64
      value, i.e. a primitive [float]; [*], [<=] and [!==] are the
      IEEE operations.  Counters and epoch times ([retries],
      [maxRetries], [nextUpdate], [Date.now()]) are integers far below
      2^53 and are kept in [Z].
    - A plain object used as a dictionary ([prices], [priceTable],
      [itemTable], [Mod.originalPrices]) is the [gmap string _] of its
      own properties; a read [o[key]] also finds what the object inherits
      from [Object.prototype] ([JS.get]), and a write follows the rules
      of assignment ([JS.set]).
    - The static fields of [Mod], the host tables, the two files and
      the interval timer form one record [World] that every operation
      threads through.  What the outside decides (the network, the
      file system, the clock) is read from an [Env], one entry per
      fetch attempt. *)

From Stdlib Require Import ZArith PrimFloat.
From stdpp Require Import gmap strings list fin_maps.
From Equations Require Import Equations.
From Equations.Prop Require Import Logic.

Local Open Scope Z_scope.

(** ** JavaScript numbers *)

Module JS.

Definition number := float.

(** [x * y] *)
Definition mul (x y : number) : number := PrimFloat.mul x y.

(** [x <= y]; false as soon as one side is NaN. *)
Definition le (x y : number) : bool := PrimFloat.leb x y.

(** [x !== y] on two numbers; NaN differs from everything, -0 does
    not differ from 0. *)
Definition strict_ne (x y : number) : bool := negb (PrimFloat.eqb x y).

(** [!x] for a number: 0, -0 and NaN are the falsy numbers. *)
Definition falsy (x : number) : bool :=
  PrimFloat.eqb x 0%float || PrimFloat.is_nan x.

(** [!v] for a value that is either [undefined] or a number. *)
Definition not_ (v : option number) : bool :=
  match v with
  | None => true
  | Some x => falsy x
  end.

(** [v ?? d] *)
Definition nullish {A} (v : option A) (d : A) : A :=
  match v with
  | Some x => x
  | None => d
  end.

(** What a property read [o[key]] can yield in this program: [undefined],
    a number, or an object (an item template, a function of
    [Object.prototype], [Object.prototype] itself). *)
Inductive Value : Type :=
| Undefined
| Number (x : number)
| Object.

(** [!!v] *)
Definition truthy (v : Value) : bool :=
  match v with
  | Undefined => false
  | Number x => negb (falsy x)
  | Object => true
  end.

(** The conversion [*] applies to an operand: [undefined], functions and
    plain objects convert to NaN. *)
Definition toNumber (v : Value) : number :=
  match v with
  | Number x => x
  | Undefined | Object => PrimFloat.nan
  end.

(** The own property names of [Object.prototype], which every plain
    object inherits. *)
Definition objectPrototype : list string :=
  ["constructor"; "__defineGetter__"; "__defineSetter__"; "hasOwnProperty";
   "__lookupGetter__"; "__lookupSetter__"; "isPrototypeOf";
   "propertyIsEnumerable"; "toString"; "valueOf"; "__proto__";
   "toLocaleString"].

Definition inherited (key : string) : bool :=
  bool_decide (key ∈ objectPrototype).

(** [o[key]] on a plain object with own properties [o]: an own property
    wins, then the members of [Object.prototype] are found, all of them
    objects. *)
Definition get {A} (own : A → Value) (o : gmap string A) (key : string) : Value :=
  match o !! key with
  | Some a => own a
  | None => if inherited key then Object else Undefined
  end.

(** [o[key] = v] for a number [v]: an own property is updated or created,
    except that without an own ["__proto__"] the assignment reaches the
    setter of [Object.prototype.__proto__], which ignores a number. *)
Definition set (o : gmap string number) (key : string) (v : number)
  : gmap string number :=
  if bool_decide (key = "__proto__") && bool_decide (o !! key = None)
  then o
  else <[key := v]> o.

End JS.

Abbreviation number := JS.number.

(** ** Data model *)

(** [interface Config] and the JSON document of [config/config.json]. *)
Record Config := mkConfig {
  maxRetries : Z;
  nextUpdate : Z;
  maxIncreaseMult : number
}.

(** An entry of [handbook.Items].  [Price] is optional because the code
    guards the read with [?.Price ?? 0]. *)
Record HandbookItem := mkHandbookItem {
  Id : string;
  Price : option number
}.

Record Handbook := mkHandbook {
  Items : list HandbookItem
}.

(** An item template of the host; only its presence is ever tested. *)
Record TemplateItem := mkTemplateItem {
  _id : string;
  _name : string
}.

(** What a file on disk holds: a JSON document of the expected shape, or
    text that [JSON.parse] rejects. *)
Inductive FileBody (A : Type) : Type :=
| Json (doc : A)
| Malformed.
Arguments Json {A} doc.
Arguments Malformed {A}.

(** The lines the module logs. *)
Inductive LogLine : Type :=
| FetchingFleaPrices
| SuccessfullyFetched
| ErrorRetrying (attempt : Z)
| RetryCountReached
| ApplyingFleaData
| SettingInstead (itemId : string) (maxPrice fetched : number)
| FleaPricesUpdated.

(** What can be thrown. *)
Inductive Error : Type :=
| NetworkError          (* [fetch] rejected *)
| BodySyntaxError       (* [response.json()] rejected *)
| PricesWriteError      (* [fs.writeFileSync(Mod.pricesPath, ..)] threw *)
| ConfigWriteError      (* [fs.writeFileSync(Mod.configPath, ..)] threw *)
| CacheReadError        (* reading or parsing the price cache file threw *)
| ConfigReadError.      (* reading or parsing the config file threw *)

Inductive Result (A : Type) : Type :=
| Return (a : A)
| Throw (e : Error).
Arguments Return {A} a.
Arguments Throw {A} e.

Record World := mkWorld {
  config : Config;                        (* Mod.config *)
  timerActive : bool;                     (* the interval behind Mod.updateTimer is scheduled *)
  originalPrices : gmap string number;    (* Mod.originalPrices *)
  priceTable : gmap string number;        (* templates.prices *)
  itemTable : gmap string TemplateItem;   (* templates.items *)
  handbookTable : Handbook;               (* templates.handbook *)
  configFile : option (FileBody Config);  (* config/config.json *)
  pricesFile : option (FileBody (gmap string number)); (* config/prices.json *)
  netCalls : nat;                         (* calls of fetch(..) made so far *)
  dynamicPriceRuns : nat;                 (* calls of generateDynamicPrices() *)
  log : list LogLine                      (* newest line first *)
}.

(** The answers of the outside world to one run of the [try] block. *)
Inductive Response : Type :=
| Unreachable
| NotJson
| Payload (prices : gmap string number).

Record Attempt := mkAttempt {
  response : Response;      (* fetch(..) and response.json() *)
  pricesWritable : bool;    (* the write of the price cache file succeeds *)
  configWritable : bool;    (* the write of the config file succeeds *)
  dateNow : Z               (* Date.now(), in milliseconds *)
}.

(** The [n]-th call of [fetch] is answered by the [n]-th entry. *)
Definition Env := nat -> Attempt.

(** ** Field updates *)

Definition set_config (c : Config) (w : World) : World :=
  mkWorld c (timerActive w) (originalPrices w) (priceTable w) (itemTable w)
          (handbookTable w) (configFile w) (pricesFile w) (netCalls w)
          (dynamicPriceRuns w) (log w).

Definition set_timerActive (b : bool) (w : World) : World :=
  mkWorld (config w) b (originalPrices w) (priceTable w) (itemTable w)
          (handbookTable w) (configFile w) (pricesFile w) (netCalls w)
          (dynamicPriceRuns w) (log w).

Definition set_originalPrices (m : gmap string number) (w : World) : World :=
  mkWorld (config w) (timerActive w) m (priceTable w) (itemTable w)
          (handbookTable w) (configFile w) (pricesFile w) (netCalls w)
          (dynamicPriceRuns w) (log w).

Definition set_priceTable (m : gmap string number) (w : World) : World :=
  mkWorld (config w) (timerActive w) (originalPrices w) m (itemTable w)
          (handbookTable w) (configFile w) (pricesFile w) (netCalls w)
          (dynamicPriceRuns w) (log w).

Definition set_configFile (f : option (FileBody Config)) (w : World) : World :=
  mkWorld (config w) (timerActive w) (originalPrices w) (priceTable w) (itemTable w)
          (handbookTable w) f (pricesFile w) (netCalls w)
          (dynamicPriceRuns w) (log w).

Definition set_pricesFile (f : option (FileBody (gmap string number))) (w : World) : World :=
  mkWorld (config w) (timerActive w) (originalPrices w) (priceTable w) (itemTable w)
          (handbookTable w) (configFile w) f (netCalls w)
          (dynamicPriceRuns w) (log w).

Definition set_netCalls (n : nat) (w : World) : World :=
  mkWorld (config w) (timerActive w) (originalPrices w) (priceTable w) (itemTable w)
          (handbookTable w) (configFile w) (pricesFile w) n
          (dynamicPriceRuns w) (log w).

Definition set_dynamicPriceRuns (n : nat) (w : World) : World :=
  mkWorld (config w) (timerActive w) (originalPrices w) (priceTable w) (itemTable w)
          (handbookTable w) (configFile w) (pricesFile w) (netCalls w)
          n (log w).

Definition set_log (l : list LogLine) (w : World) : World :=
  mkWorld (config w) (timerActive w) (originalPrices w) (priceTable w) (itemTable w)
          (handbookTable w) (configFile w) (pricesFile w) (netCalls w)
          (dynamicPriceRuns w) l.

Definition set_nextUpdate (t : Z) (c : Config) : Config :=
  mkConfig (maxRetries c) t (maxIncreaseMult c).

(** [logger.info(..)] / [logger.debug(..)] *)
Definition logger (l : LogLine) (w : World) : World := set_log (l :: log w) w.

(** [clearInterval(Mod.updateTimer)]: a scheduled interval stops; with no
    interval registered yet nothing happens. *)
Definition clearInterval (w : World) : World := set_timerActive false w.

(** [Mod.updateTimer = setInterval(Mod.updatePrices, 60 * 60 * 1000)] *)
Definition setInterval (w : World) : World := set_timerActive true w.

(** ** The price merger: the body of the [for .. in] loop of [updatePrices] *)

(** [handbookTable.Items.find(x => x.Id === itemId)] *)
Definition findHandbook (h : Handbook) (itemId : string) : option HandbookItem :=
  List.find (fun x => bool_decide (Id x = itemId)) (Items h).

(** <<
    let basePrice = Mod.originalPrices[itemId];
    if (!basePrice)
    {
        basePrice = handbookTable.Items.find(x => x.Id === itemId)?.Price ?? 0;
    }
>> *)
Definition basePrice (w : World) (itemId : string) : JS.Value :=
  let basePrice := JS.get JS.Number (originalPrices w) itemId in
  if negb (JS.truthy basePrice)
  then JS.Number (JS.nullish (findHandbook (handbookTable w) itemId ≫= Price) 0%float)
  else basePrice.

(** [const maxPrice = basePrice * Mod.config.maxIncreaseMult;] *)
Definition maxPrice (w : World) (itemId : string) : number :=
  JS.mul (JS.toNumber (basePrice w itemId)) (maxIncreaseMult (config w)).

(** [priceTable[itemId] = v] *)
Definition writePrice (itemId : string) (v : number) (w : World) : World :=
  set_priceTable (JS.set (priceTable w) itemId v) w.

(** One iteration of the loop, for the key [itemId] with
    [prices[itemId] = fetched]. *)
Definition applyItem (itemId : string) (fetched : number) (w : World) : World :=
  if negb (JS.truthy (JS.get (λ _, JS.Object) (itemTable w) itemId))
  then w                                          (* continue *)
  else
    let maxPrice := maxPrice w itemId in
    if JS.strict_ne maxPrice 0%float && JS.le fetched maxPrice
    then writePrice itemId fetched w
    else writePrice itemId maxPrice (logger (SettingInstead itemId maxPrice fetched) w).

(** [for (const itemId in prices) { .. }]: every own key of [prices] is
    visited once.  The order of the visits only shows in the order of
    the debug lines. *)
Definition applyPrices (prices : gmap string number) (w : World) : World :=
  map_fold applyItem w prices.

(** ** The fetcher *)

(** The [try] block of [fetchPrices]: the request, [response.json()],
    the two writes and the new [nextUpdate], up to the first statement
    that throws.  A write that throws leaves its file as it was. *)
Definition tryFetch (E : Env) (w : World) : Result (gmap string number) * World :=
  let a := E (netCalls w) in
  let w := set_netCalls (S (netCalls w)) w in
  match response a with
  | Unreachable => (Throw NetworkError, w)
  | NotJson => (Throw BodySyntaxError, w)
  | Payload prices =>
      if pricesWritable a then
        let w := set_pricesFile (Some (Json prices)) w in
        let w := set_config (set_nextUpdate (dateNow a / 1000 + 3600) (config w)) w in
        if configWritable a then
          let w := set_configFile (Some (Json (config w))) w in
          (Return prices, logger SuccessfullyFetched w)
        else (Throw ConfigWriteError, w)
      else (Throw PricesWriteError, w)
  end.

(** [fs.existsSync(path)] *)
Definition existsSync {A} (f : option (FileBody A)) : bool :=
  match f with
  | Some _ => true
  | None => false
  end.

(** [JSON.parse(fs.readFileSync(Mod.pricesPath, "utf-8"))]; it throws on
    a missing file and on text that is not JSON. *)
Definition readPrices (w : World) : Result (gmap string number) * World :=
  match pricesFile w with
  | Some (Json prices) => (Return prices, w)
  | _ => (Throw CacheReadError, w)
  end.

(** The values of the default parameters of
    [fetchPrices(fetchPrices = true, retries = 1)]. *)
Definition default_fetchPrices : bool := true.
Definition default_retries : Z := 1.

(** [Mod.fetchPrices] of [src/mod.ts]. *)
Equations? fetchPrices (E : Env) (fetchPrices_ : bool) (retries : Z) (w : World)
  : Result (gmap string number) * World
  by wf (Z.to_nat (maxRetries (config w) + 1 - retries)) lt :=
fetchPrices E fetchPrices_ retries w
  with fetchPrices_ || negb (existsSync (pricesFile w)) := {
  | false => readPrices w
  | true with inspect (tryFetch E (logger FetchingFleaPrices w)) := {
    | exist _ (Return prices, w1) _ => (Return prices, w1)
    | exist _ (Throw error, w1) Hcatch
      with inspect (retries <=? maxRetries (config w)) := {
      | exist _ true Hle =>
          fetchPrices E true (retries + 1) (logger (ErrorRetrying retries) w1)
      | exist _ false _ =>
          (Throw error, clearInterval (logger RetryCountReached w1)) } } }.
Proof.
  assert (maxRetries (config w1) = maxRetries (config w)) as ->.
  { unfold tryFetch in Hcatch.
    repeat match type of Hcatch with
           | context [match ?x with _ => _ end] => destruct x
           end; inversion Hcatch; reflexivity. }
  apply Z.leb_le in Hle. lia.
Qed.

(** [(ragfairPriceService as any).generateDynamicPrices()]: a call into the
    host, of which only the fact that it happened is kept. *)
Definition generateDynamicPrices (w : World) : World :=
  set_dynamicPriceRuns (S (dynamicPriceRuns w)) w.

(** The start of a live call [Mod.fetchPrices()] that is not awaited: the
    call runs up to its first [await], so the line is logged and the
    request is on its way when the caller goes on. *)
Definition request (w : World) : World :=
  set_netCalls (S (netCalls w)) (logger FetchingFleaPrices w).

(** The rest of the [try] block once the request is out; the answer is
    that of the last request made. *)
Definition respond (E : Env) (w : World) : Result (gmap string number) * World :=
  let a := E (Nat.pred (netCalls w)) in
  match response a with
  | Unreachable => (Throw NetworkError, w)
  | NotJson => (Throw BodySyntaxError, w)
  | Payload prices =>
      if pricesWritable a then
        let w := set_pricesFile (Some (Json prices)) w in
        let w := set_config (set_nextUpdate (dateNow a / 1000 + 3600) (config w)) w in
        if configWritable a then
          let w := set_configFile (Some (Json (config w))) w in
          (Return prices, logger SuccessfullyFetched w)
        else (Throw ConfigWriteError, w)
      else (Throw PricesWriteError, w)
  end.

(** What a call [Mod.fetchPrices()] that was started by [request] and not
    awaited goes on to do once the answer arrives; a [Throw] is a
    rejection that nobody handles. *)
Definition detachedFetch (E : Env) (w : World)
  : Result (gmap string number) * World :=
  match respond E w with
  | (Return prices, w1) => (Return prices, w1)
  | (Throw error, w1) =>
      if default_retries <=? maxRetries (config w)
      then fetchPrices E true (default_retries + 1)
             (logger (ErrorRetrying default_retries) w1)
      else (Throw error, clearInterval (logger RetryCountReached w1))
  end.

(** The keys [for .. in] visits on the parameter [prices] of
    [updatePrices] in [src/mod.ts]: it is a boolean or [undefined], which
    have none. *)
Definition flagKeys (prices : option bool) : gmap string number := ∅.

(** [Mod.updatePrices] of [src/mod.ts], as the file is written.  Line 97,
    [await prices = Mod.fetchPrices();], is not an assignment: the
    parameter [prices] (the flag computed by [postDBLoadAsync], or nothing
    when the interval fires) is awaited and keeps its value, and
    [Mod.fetchPrices()] is called with both parameters at their defaults
    without being awaited.  The loop therefore runs over the parameter, and
    the fetch goes on as [detachedFetch] after [updatePrices] has
    returned. *)
Definition updatePrices (E : Env) (prices : option bool) (w : World)
  : Result bool * World :=
  let w := request w in
  let w := logger ApplyingFleaData w in
  let w := applyPrices (flagKeys prices) w in
  let w := generateDynamicPrices w in
  let w := logger FleaPricesUpdated w in
  (Return true, w).

(** [JSON.parse(fs.readFileSync(Mod.configPath, "utf-8"))] *)
Definition readConfig (w : World) : Result Config :=
  match configFile w with
  | Some (Json c) => Return c
  | _ => Throw ConfigReadError
  end.

(** [postDBLoadAsync] of [src/mod.ts]; [now] is what [Date.now()] returns
    at startup. *)
Definition postDBLoadAsync (E : Env) (now : Z) (w : World) : Result unit * World :=
  match readConfig w with
  | Throw error => (Throw error, w)
  | Return c =>
      let w := set_config c w in
      let w := set_originalPrices (priceTable w) w in
      let currentTime := now / 1000 in
      let fetchPrices := bool_decide (currentTime > nextUpdate (config w)) in
      match updatePrices E (Some fetchPrices) w with
      | (Throw error, w) => (Throw error, w)
      | (Return false, w) => (Return (), w)
      | (Return true, w) => (Return (), setInterval w)
      end
  end.


(** ** The second revision of the file in the repository

    It differs from [src/mod.ts] in three places: [fetchPrices] has no
    [fetchPrices] parameter and no branch that reads the cache file,
    [updatePrices] has no parameter and awaits the fetcher
    ([const prices = await Mod.fetchPrices();]), and [postDBLoadAsync]
    does not compare the clock with [nextUpdate]. *)

Module Rev2.

(** [Mod.fetchPrices(retries = 1)] *)
Equations? fetchPrices (E : Env) (retries : Z) (w : World)
  : Result (gmap string number) * World
  by wf (Z.to_nat (maxRetries (config w) + 1 - retries)) lt :=
fetchPrices E retries w
  with inspect (tryFetch E (logger FetchingFleaPrices w)) := {
  | exist _ (Return prices, w1) _ => (Return prices, w1)
  | exist _ (Throw error, w1) Hcatch
    with inspect (retries <=? maxRetries (config w)) := {
    | exist _ true Hle =>
        fetchPrices E (retries + 1) (logger (ErrorRetrying retries) w1)
    | exist _ false _ =>
        (Throw error, clearInterval (logger RetryCountReached w1)) } }.
Proof.
  assert (maxRetries (config w1) = maxRetries (config w)) as ->.
  { unfold tryFetch in Hcatch.
    repeat match type of Hcatch with
           | context [match ?x with _ => _ end] => destruct x
           end; inversion Hcatch; reflexivity. }
  apply Z.leb_le in Hle. lia.
Qed.

(** [Mod.updatePrices()] *)
Definition updatePrices (E : Env) (w : World) : Result bool * World :=
  match fetchPrices E default_retries w with
  | (Throw error, w) => (Throw error, w)
  | (Return prices, w) =>
      let w := logger ApplyingFleaData w in
      let w := applyPrices prices w in
      let w := generateDynamicPrices w in
      let w := logger FleaPricesUpdated w in
      (Return true, w)
  end.

(** [postDBLoadAsync] *)
Definition postDBLoadAsync (E : Env) (w : World) : Result unit * World :=
  match readConfig w with
  | Throw error => (Throw error, w)
  | Return c =>
      let w := set_config c w in
      let w := set_originalPrices (priceTable w) w in
      match updatePrices E w with
      | (Throw error, w) => (Throw error, w)
      | (Return false, w) => (Return (), w)
      | (Return true, w) => (Return (), setInterval w)
      end
  end.

End Rev2.

(** ** Vocabulary of the statements *)

(** The value the loop body stores for an item it does not skip. *)
Definition clamped (w : World) (itemId : string) (fetched : number) : number :=
  let maxPrice := maxPrice w itemId in
  if JS.strict_ne maxPrice 0%float && JS.le fetched maxPrice
  then fetched
  else maxPrice.

(** [itemTable[itemId]] is truthy, so the loop body does not skip the key:
    the item table has the key, or [Object.prototype] has. *)
Definition visible (w : World) (itemId : string) : bool :=
  JS.truthy (JS.get (λ _, JS.Object) (itemTable w) itemId).

(** What the loop reads and never writes. *)
Definition loop_frame (w w' : World) : Prop :=
  config w' = config w ∧
  itemTable w' = itemTable w ∧
  originalPrices w' = originalPrices w ∧
  handbookTable w' = handbookTable w.

(** The host tables, the snapshot and the two configured constants. *)
Definition same_host (w w' : World) : Prop :=
  priceTable w' = priceTable w ∧
  itemTable w' = itemTable w ∧
  originalPrices w' = originalPrices w ∧
  handbookTable w' = handbookTable w ∧
  maxIncreaseMult (config w') = maxIncreaseMult (config w) ∧
  maxRetries (config w') = maxRetries (config w).

(** The error with which the [try] block ends when the outside world
    answers [a]; [None] when the block runs to its end. *)
Definition failure (a : Attempt) : option Error :=
  match response a with
  | Unreachable => Some NetworkError
  | NotJson => Some BodySyntaxError
  | Payload _ =>
      if pricesWritable a
      then if configWritable a then None else Some ConfigWriteError
      else Some PricesWriteError
  end.

(** The request is answered with a payload, but one of the two writes
    that follow throws. *)
Definition persistFails (a : Attempt) : Prop :=
  ∃ prices, response a = Payload prices ∧
            pricesWritable a && configWritable a = false.

(** ** Sample data

    A small host database and three behaviours of the outside world, used
    to run the definitions. *)

Module Sample.

Definition cfg : Config := mkConfig 2 0 1.5%float.

(** Snapshot and live table agree at startup.  ["z"] has a snapshot
    entry of 0 and a handbook price of 40; ["b"] is a known item with
    no price anywhere. *)
Definition table : gmap string number :=
  <["a" := 100%float]> (<["z" := 0%float]> (<["q" := 7%float]> ∅)).

Definition items : gmap string TemplateItem :=
  <["a" := mkTemplateItem "a" "Item A"]>
    (<["b" := mkTemplateItem "b" "Item B"]>
       (<["z" := mkTemplateItem "z" "Item Z"]> ∅)).

Definition handbook : Handbook :=
  mkHandbook [mkHandbookItem "z" (Some 40%float); mkHandbookItem "b" None].

Definition cached : gmap string number := <["a" := 90%float]> ∅.

(** The state in which [updatePrices] first runs: config loaded,
    snapshot taken, no timer yet, no price cache file. *)
Definition world : World :=
  mkWorld cfg false table table items handbook (Some (Json cfg)) None 0 0 [].

(** The same with a price cache file and a running timer. *)
Definition running : World :=
  set_timerActive true (set_pricesFile (Some (Json cached)) world).

Definition payload : gmap string number :=
  <["a" := 200%float]>
    (<["b" := 50%float]> (<["z" := 30%float]> (<["ghost" := 5%float]> ∅))).

(** Every request is answered and both writes succeed. *)
Definition online : Env := λ _, mkAttempt (Payload payload) true true 5000.

(** No request is ever answered. *)
Definition offline : Env := λ _, mkAttempt Unreachable true true 5000.

(** Requests are answered but the disk refuses every write. *)
Definition readonly : Env := λ _, mkAttempt (Payload payload) false false 5000.

(** The first two attempts fail on the config write, the third works. *)
Definition flaky : Env :=
  λ n, if (n <? 2)%nat
       then mkAttempt (Payload payload) true false 5000
       else mkAttempt (Payload payload) true true 9000.

End Sample.

(** The loop of [updatePrices] with the keys visited in the order of
    [entries]: [for .. in] fixes an order of its own (integer-like keys
    first, then the others as they were inserted), which [applyPrices]
    does not follow. *)
Definition applyEntries (entries : list (string * number)) (w : World) : World :=
  foldl (λ w entry, applyItem entry.1 entry.2 w) w entries.

(** The lines a live fetch logs, oldest first, when it starts with
    [retries], has [n] retries left and every attempt fails. *)
Fixpoint exhaustionLines (retries : Z) (n : nat) : list LogLine :=
  match n with
  | O => [FetchingFleaPrices; RetryCountReached]
  | S n => FetchingFleaPrices :: ErrorRetrying retries :: exhaustionLines (retries + 1) n
  end.

(** Further sample data. *)

Module Scenario.

(** The price cache file holds text that is not JSON. *)
Definition corrupted : World :=
  set_pricesFile (Some Malformed) Sample.running.

(** The first request is answered, every later one is not. *)
Definition outage : Env :=
  λ n, if (n <? 1)%nat
       then mkAttempt (Payload Sample.payload) true true 5000
       else mkAttempt Unreachable true true 9000.

(** The config file cannot be written. *)
Definition lockedConfig : Env :=
  λ _, mkAttempt (Payload Sample.payload) true false 5000.

(** A payload with a key that is the name of a member of
    [Object.prototype], and a world that serves it. *)
Definition polluted : gmap string number :=
  <["constructor" := 5%float]> Sample.payload.

Definition pollutedFeed : Env :=
  λ _, mkAttempt (Payload polluted) true true 5000.

(** The payload in another order of its keys. *)
Definition shuffled : list (string * number) :=
  [("z", 30%float); ("ghost", 5%float); ("a", 200%float); ("b", 50%float)].

End Scenario.

(** * Properties *)

(** ** Unfolding the fetcher *)

Ltac rewrite_branches :=
  repeat match goal with
         | H : _ || _ = _ |- _ => rewrite H
         | H : tryFetch _ _ = _ |- _ => rewrite H
         | H : (_ <=? _) = _ |- _ => rewrite H
         end.

Lemma fetchPrices_step E fetchPrices_ retries w :
  fetchPrices E fetchPrices_ retries w =
  if fetchPrices_ || negb (existsSync (pricesFile w)) then
    match tryFetch E (logger FetchingFleaPrices w) with
    | (Return prices, w1) => (Return prices, w1)
    | (Throw error, w1) =>
        if retries <=? maxRetries (config w)
        then fetchPrices E true (retries + 1) (logger (ErrorRetrying retries) w1)
        else (Throw error, clearInterval (logger RetryCountReached w1))
    end
  else readPrices w.
Proof.
  funelim (fetchPrices E fetchPrices_ retries w); clear Heqcall;
    rewrite_branches; reflexivity.
Qed.

Lemma fetchPrices_live_step E retries w :
  fetchPrices E true retries w =
  match tryFetch E (logger FetchingFleaPrices w) with
  | (Return prices, w1) => (Return prices, w1)
  | (Throw error, w1) =>
      if retries <=? maxRetries (config w)
      then fetchPrices E true (retries + 1) (logger (ErrorRetrying retries) w1)
      else (Throw error, clearInterval (logger RetryCountReached w1))
  end.
Proof. rewrite fetchPrices_step. reflexivity. Qed.

(** The second revision fetches exactly like [src/mod.ts] does when a
    live fetch is asked for, and therefore runs the same merge cycle. *)
Lemma Rev2_fetchPrices_eq E retries w :
  Rev2.fetchPrices E retries w = fetchPrices E true retries w.
Proof.
  funelim (Rev2.fetchPrices E retries w); clear Heqcall;
    rewrite fetchPrices_live_step; rewrite_branches; auto.
Qed.

(** ** What the fetcher leaves alone *)

Lemma same_host_refl w : same_host w w.
Proof. repeat split. Qed.

Lemma same_host_trans w1 w2 w3 :
  same_host w1 w2 → same_host w2 w3 → same_host w1 w3.
Proof. unfold same_host. intuition congruence. Qed.

Lemma same_host_logger l w : same_host w (logger l w).
Proof. repeat split. Qed.

Lemma same_host_clearInterval w : same_host w (clearInterval w).
Proof. repeat split. Qed.

Lemma tryFetch_same_host E w : same_host w (tryFetch E w).2.
Proof.
  unfold tryFetch.
  destruct (response (E (netCalls w))); [repeat split .. |].
  destruct (pricesWritable _); [| repeat split].
  destruct (configWritable _); repeat split.
Qed.

Lemma tryFetch_netCalls E w : netCalls (tryFetch E w).2 = S (netCalls w).
Proof.
  unfold tryFetch.
  destruct (response (E (netCalls w))); [reflexivity .. |].
  destruct (pricesWritable _); [| reflexivity].
  destruct (configWritable _); reflexivity.
Qed.

Lemma tryFetch_timerActive E w : timerActive (tryFetch E w).2 = timerActive w.
Proof.
  unfold tryFetch.
  destruct (response (E (netCalls w))); [reflexivity .. |].
  destruct (pricesWritable _); [| reflexivity].
  destruct (configWritable _); reflexivity.
Qed.

Lemma fetchPrices_same_host E fetchPrices_ retries w :
  same_host w (fetchPrices E fetchPrices_ retries w).2.
Proof.
  funelim (fetchPrices E fetchPrices_ retries w); clear Heqcall.
  - unfold readPrices. destruct (pricesFile w) as [[?|]|]; apply same_host_refl.
  - pose proof (tryFetch_same_host E (logger FetchingFleaPrices w)) as Ht.
    rewrite e in Ht. exact Ht.
  - pose proof (tryFetch_same_host E (logger FetchingFleaPrices w)) as Ht.
    rewrite Hcatch in Ht.
    eapply same_host_trans; [exact Ht |].
    eapply same_host_trans; [apply same_host_logger | exact H].
  - pose proof (tryFetch_same_host E (logger FetchingFleaPrices w)) as Ht.
    rewrite Hcatch in Ht. exact Ht.
Qed.

(** ** The loop *)

Lemma loop_frame_refl w : loop_frame w w.
Proof. repeat split. Qed.

Lemma maxPrice_frame w w' itemId :
  loop_frame w w' → maxPrice w' itemId = maxPrice w itemId.
Proof.
  intros (Hc & _ & Ho & Hh). unfold maxPrice, basePrice.
  rewrite Hc, Ho, Hh. reflexivity.
Qed.

Lemma JS_set_same (o : gmap string number) key v :
  JS.set o key v !! key =
  if bool_decide (key = "__proto__") && bool_decide (o !! key = None)
  then None
  else Some v.
Proof.
  unfold JS.set. destruct (bool_decide (key = "__proto__")); simpl;
    [| apply lookup_insert_eq].
  destruct (bool_decide (o !! key = None)) eqn:Hown;
    [apply bool_decide_eq_true in Hown; exact Hown | apply lookup_insert_eq].
Qed.

Lemma JS_set_other (o : gmap string number) key v other :
  other ≠ key → JS.set o key v !! other = o !! other.
Proof.
  intros Hne. unfold JS.set. destruct (_ && _); [reflexivity |].
  apply lookup_insert_ne. congruence.
Qed.

Lemma JS_set_same_ext (o o' : gmap string number) key v :
  o' !! key = o !! key → JS.set o' key v !! key = JS.set o key v !! key.
Proof. intros H. rewrite !JS_set_same, H. reflexivity. Qed.

Lemma applyItem_frame itemId fetched w : loop_frame w (applyItem itemId fetched w).
Proof.
  unfold applyItem. destruct (negb _); [apply loop_frame_refl |].
  destruct (_ && _); repeat split.
Qed.

Lemma applyItem_same itemId fetched w :
  priceTable (applyItem itemId fetched w) !! itemId =
  if visible w itemId
  then JS.set (priceTable w) itemId (clamped w itemId fetched) !! itemId
  else priceTable w !! itemId.
Proof.
  unfold applyItem, clamped, visible.
  destruct (JS.truthy _); simpl; [| reflexivity].
  destruct (_ && _); reflexivity.
Qed.

Lemma applyItem_other itemId fetched w other :
  other ≠ itemId →
  priceTable (applyItem itemId fetched w) !! other = priceTable w !! other.
Proof.
  intros Hne. unfold applyItem. destruct (negb _); [reflexivity |].
  destruct (_ && _); simpl; apply JS_set_other; assumption.
Qed.

Lemma visible_frame w w' itemId :
  loop_frame w w' → visible w' itemId = visible w itemId.
Proof. intros (_ & Hi & _). unfold visible. rewrite Hi. reflexivity. Qed.

Lemma clamped_frame w w' itemId fetched :
  loop_frame w w' → clamped w' itemId fetched = clamped w itemId fetched.
Proof. intros H. unfold clamped. rewrite (maxPrice_frame w w' itemId H). reflexivity. Qed.

(** The state after the loop, key by key. *)
Lemma applyPrices_lookup prices w :
  loop_frame w (applyPrices prices w) ∧
  ∀ itemId,
    priceTable (applyPrices prices w) !! itemId =
    match prices !! itemId with
    | Some fetched =>
        if visible w itemId
        then JS.set (priceTable w) itemId (clamped w itemId fetched) !! itemId
        else priceTable w !! itemId
    | None => priceTable w !! itemId
    end.
Proof.
  unfold applyPrices.
  apply (map_fold_weak_ind
           (λ w' (m : gmap string number),
              loop_frame w w' ∧
              ∀ itemId,
                priceTable w' !! itemId =
                match m !! itemId with
                | Some fetched =>
                    if visible w itemId
                    then JS.set (priceTable w) itemId (clamped w itemId fetched) !! itemId
                    else priceTable w !! itemId
                | None => priceTable w !! itemId
                end)).
  - split; [apply loop_frame_refl |]. intros itemId. rewrite lookup_empty. reflexivity.
  - intros k v m w' Hfresh [Hframe IH]. split.
    + destruct Hframe as (Hc & Hi & Ho & Hh).
      destruct (applyItem_frame k v w') as (Hc' & Hi' & Ho' & Hh').
      repeat split; congruence.
    + intros itemId. destruct (decide (itemId = k)) as [-> | Hne].
      * rewrite lookup_insert_eq, applyItem_same.
        rewrite (visible_frame w w' k Hframe), (clamped_frame w w' k v Hframe).
        assert (priceTable w' !! k = priceTable w !! k) as Hk
          by (rewrite IH, Hfresh; reflexivity).
        rewrite (JS_set_same_ext _ _ _ _ Hk), Hk. reflexivity.
      * rewrite lookup_insert_ne by congruence.
        rewrite applyItem_other by assumption. apply IH.
Qed.

(** ** The merge cycle of the second revision *)

Lemma Rev2_updatePrices_Return E w prices w1 :
  Rev2.fetchPrices E default_retries w = (Return prices, w1) →
  Rev2.updatePrices E w =
  (Return true,
   logger FleaPricesUpdated
     (generateDynamicPrices (applyPrices prices (logger ApplyingFleaData w1)))).
Proof. intros H. unfold Rev2.updatePrices. rewrite H. reflexivity. Qed.

Lemma Rev2_updatePrices_Throw E w error w1 :
  Rev2.fetchPrices E default_retries w = (Throw error, w1) →
  Rev2.updatePrices E w = (Throw error, w1).
Proof. intros H. unfold Rev2.updatePrices. rewrite H. reflexivity. Qed.

Lemma maxPrice_same_host w w' itemId :
  same_host w w' → maxPrice w' itemId = maxPrice w itemId.
Proof.
  intros (_ & _ & Ho & Hh & Hm & _). unfold maxPrice, basePrice.
  rewrite Ho, Hh, Hm. reflexivity.
Qed.

(** The host price table after a cycle whose fetch returned [prices]. *)
Lemma Rev2_updatePrices_lookup E w prices w1 itemId :
  Rev2.fetchPrices E default_retries w = (Return prices, w1) →
  priceTable (Rev2.updatePrices E w).2 !! itemId =
  match prices !! itemId with
  | Some fetched =>
      if visible w itemId
      then JS.set (priceTable w) itemId (clamped w itemId fetched) !! itemId
      else priceTable w !! itemId
  | None => priceTable w !! itemId
  end.
Proof.
  intros Hfetch. rewrite (Rev2_updatePrices_Return _ _ _ _ Hfetch). simpl.
  destruct (applyPrices_lookup prices (logger ApplyingFleaData w1)) as [_ ->].
  pose proof (fetchPrices_same_host E true default_retries w) as Hhost.
  rewrite <- Rev2_fetchPrices_eq, Hfetch in Hhost. simpl in Hhost.
  assert (same_host w (logger ApplyingFleaData w1)) as Hhost'
    by (eapply same_host_trans; [exact Hhost | apply same_host_logger]).
  unfold clamped, visible. rewrite (maxPrice_same_host _ _ itemId Hhost').
  destruct Hhost' as (Hp & Hi & _). simpl in Hp, Hi. simpl. rewrite Hp, Hi.
  reflexivity.
Qed.

(** A key that the item table has, other than one that falls to the
    setter of [Object.prototype.__proto__], is stored as clamped. *)
Lemma Rev2_updatePrices_known E w prices w1 itemId fetched :
  Rev2.fetchPrices E default_retries w = (Return prices, w1) →
  prices !! itemId = Some fetched →
  is_Some (itemTable w !! itemId) →
  itemId ≠ "__proto__" →
  priceTable (Rev2.updatePrices E w).2 !! itemId = Some (clamped w itemId fetched).
Proof.
  intros Hfetch Hin [item Hitem] Hproto.
  rewrite (Rev2_updatePrices_lookup _ _ _ _ itemId Hfetch), Hin.
  unfold visible, JS.get. rewrite Hitem. simpl.
  rewrite JS_set_same.
  destruct (bool_decide (itemId = "__proto__")) eqn:Hd; [| reflexivity].
  apply bool_decide_eq_true in Hd. contradiction.
Qed.

(** ** The merge cycle of [src/mod.ts] *)

Lemma updatePrices_state E prices w :
  updatePrices E prices w =
  (Return true,
   logger FleaPricesUpdated
     (generateDynamicPrices (logger ApplyingFleaData (request w)))).
Proof. reflexivity. Qed.

Lemma updatePrices_priceTable E prices w :
  priceTable (updatePrices E prices w).2 = priceTable w.
Proof. reflexivity. Qed.

(** C1.  In the second revision, after a merge cycle, an item that is
    both in the fetched prices and in the host item table has, in the host
    price table, the fetched value when
    [maxPrice = basePrice * maxIncreaseMult] is nonzero and the fetched
    value is at most [maxPrice], and [maxPrice] in every other case; in
    particular a [maxPrice] of zero is stored as it is.  (The one key that
    cannot be stored this way is ["__proto__"].)  In [src/mod.ts] as
    written the cycle stores nothing at all: the host price table is
    after the cycle what it was before. *)
Theorem merge_cycle_clamps E arg w prices w1 itemId fetchedValue :
  Rev2.fetchPrices E default_retries w = (Return prices, w1) →
  prices !! itemId = Some fetchedValue →
  is_Some (itemTable w !! itemId) →
  itemId ≠ "__proto__" →
  let maxPrice :=
    JS.mul (JS.toNumber (basePrice w itemId)) (maxIncreaseMult (config w)) in
  let after := (Rev2.updatePrices E w).2 in
  ((JS.strict_ne maxPrice 0%float = true ∧ JS.le fetchedValue maxPrice = true →
    priceTable after !! itemId = Some fetchedValue) ∧
   (¬ (JS.strict_ne maxPrice 0%float = true ∧ JS.le fetchedValue maxPrice = true) →
    priceTable after !! itemId = Some maxPrice) ∧
   (JS.strict_ne maxPrice 0%float = false →
    priceTable after !! itemId = Some maxPrice)) ∧
  priceTable (updatePrices E arg w).2 = priceTable w.
Proof.
  intros Hfetch Hin Hitem Hproto maxP after. subst after.
  split; [| apply updatePrices_priceTable].
  rewrite (Rev2_updatePrices_known _ _ _ _ _ _ Hfetch Hin Hitem Hproto).
  unfold clamped, maxPrice. fold maxP.
  destruct (JS.strict_ne maxP 0%float) eqn:Hnz, (JS.le fetchedValue maxP) eqn:Hle;
    simpl; repeat split; intros; try reflexivity;
    try discriminate; try (exfalso; tauto); intuition discriminate.
Qed.

Lemma merge_cycle_clamps_witness :
  priceTable (Rev2.updatePrices Sample.online Sample.world).2 !! "a" = Some 150%float ∧
  priceTable (updatePrices Sample.online None Sample.world).2 !! "a" = Some 100%float.
Proof.
  pose proof (merge_cycle_clamps Sample.online None Sample.world Sample.payload
                (Rev2.fetchPrices Sample.online 1 Sample.world).2 "a" 200%float) as H.
  destruct H as [(_ & H & _) Hsame].
  - vm_compute. reflexivity.
  - vm_compute. reflexivity.
  - eexists. vm_compute. reflexivity.
  - discriminate.
  - split.
    + apply H. vm_compute. intros [_ Hle]. discriminate Hle.
    + rewrite Hsame. vm_compute. reflexivity.
Defined.




(** C9.  An identifier that is not a key of the fetched prices keeps its
    host price table entry through a merge cycle, in [src/mod.ts] and in
    the second revision. *)
Theorem unfetched_key_untouched E arg w prices w1 itemId :
  fetchPrices E default_fetchPrices default_retries w = (Return prices, w1) →
  prices !! itemId = None →
  priceTable (updatePrices E arg w).2 !! itemId = priceTable w !! itemId ∧
  priceTable (Rev2.updatePrices E w).2 !! itemId = priceTable w !! itemId.
Proof.
  intros Hfetch Hnone. split; [reflexivity |].
  unfold default_fetchPrices in Hfetch. rewrite <- Rev2_fetchPrices_eq in Hfetch.
  rewrite (Rev2_updatePrices_lookup _ _ _ _ itemId Hfetch), Hnone. reflexivity.
Qed.

Lemma unfetched_key_untouched_witness :
  priceTable (updatePrices Sample.online None Sample.world).2 !! "q" = Some 7%float ∧
  priceTable (Rev2.updatePrices Sample.online Sample.world).2 !! "q" = Some 7%float.
Proof.
  refine (unfetched_key_untouched Sample.online None Sample.world
            Sample.payload
            (fetchPrices Sample.online true 1 Sample.world).2
            "q" _ _).
  - vm_compute. reflexivity.
  - vm_compute. reflexivity.
Defined.

(** A cycle of the second revision whose fetch throws does not touch the
    host price table. *)
Lemma failed_cycle_keeps_table E w error w1 :
  Rev2.fetchPrices E default_retries w = (Throw error, w1) →
  priceTable (Rev2.updatePrices E w).2 = priceTable w.
Proof.
  intros Hfetch. rewrite (Rev2_updatePrices_Throw _ _ _ _ Hfetch). simpl.
  pose proof (fetchPrices_same_host E true default_retries w) as Hhost.
  rewrite <- Rev2_fetchPrices_eq, Hfetch in Hhost. apply Hhost.
Qed.

(** C8.  A merge cycle never returns [false].  In [src/mod.ts] as written
    it returns [true] on every input, since the fetcher is not awaited;
    in the second revision it returns [true] exactly when the fetcher
    returned and throws what the fetcher threw otherwise. *)
Theorem merge_cycle_returns_true E arg w :
  (updatePrices E arg w).1 = Return true ∧
  match Rev2.fetchPrices E default_retries w with
  | (Return _, _) => (Rev2.updatePrices E w).1 = Return true
  | (Throw error, w1) => Rev2.updatePrices E w = (Throw error, w1)
  end ∧
  (∀ after, updatePrices E arg w ≠ (Return false, after)) ∧
  (∀ after, Rev2.updatePrices E w ≠ (Return false, after)).
Proof.
  split; [reflexivity |].
  unfold Rev2.updatePrices.
  destruct (Rev2.fetchPrices E default_retries w) as [[prices | error] w1];
    simpl; repeat split; intros after H; discriminate H.
Qed.

(** ** Base price *)

Lemma findHandbook_Some h itemId entry :
  findHandbook h itemId = Some entry → entry ∈ Items h ∧ Id entry = itemId.
Proof.
  unfold findHandbook. intros H. apply find_some in H as [Hin Hid].
  split; [apply list_elem_of_In; exact Hin |].
  apply bool_decide_eq_true in Hid. exact Hid.
Qed.

Lemma findHandbook_None h itemId :
  findHandbook h itemId = None ↔ ∀ entry, entry ∈ Items h → Id entry ≠ itemId.
Proof.
  unfold findHandbook. split.
  - intros H entry Hin Hid.
    apply list_elem_of_In in Hin.
    pose proof (find_none _ _ H entry Hin) as Hf. simpl in Hf.
    apply bool_decide_eq_false in Hf. contradiction.
  - intros H. destruct (find _ _) as [entry |] eqn:Hf; [| reflexivity].
    apply find_some in Hf as [Hin Hid].
    apply bool_decide_eq_true in Hid. apply list_elem_of_In in Hin.
    exfalso. exact (H entry Hin Hid).
Qed.

(** C2, as the code has it.  The snapshot entry is the base price when
    it exists and is truthy (neither 0 nor NaN).  When the read of the
    snapshot yields [undefined], or a falsy entry, the [Price] of the
    first handbook entry with this [Id] is the base price.  When there is
    no such entry, or it has no [Price], the base price is 0. *)
Theorem basePrice_resolution w itemId :
  (∀ v, originalPrices w !! itemId = Some v → JS.falsy v = false →
        basePrice w itemId = JS.Number v) ∧
  (∀ entry p,
     JS.get JS.Number (originalPrices w) itemId = JS.Undefined ∨
     (∃ v, originalPrices w !! itemId = Some v ∧ JS.falsy v = true) →
     findHandbook (handbookTable w) itemId = Some entry →
     Price entry = Some p →
     basePrice w itemId = JS.Number p) ∧
  (JS.get JS.Number (originalPrices w) itemId = JS.Undefined ∨
   (∃ v, originalPrices w !! itemId = Some v ∧ JS.falsy v = true) →
   findHandbook (handbookTable w) itemId = None ∨
   (∃ entry, findHandbook (handbookTable w) itemId = Some entry ∧ Price entry = None) →
   basePrice w itemId = JS.Number 0%float).
Proof.
  assert (∀ v, originalPrices w !! itemId = Some v →
               JS.get JS.Number (originalPrices w) itemId = JS.Number v) as Hown
    by (intros v Hv; unfold JS.get; rewrite Hv; reflexivity).
  assert (JS.get JS.Number (originalPrices w) itemId = JS.Undefined ∨
          (∃ v, originalPrices w !! itemId = Some v ∧ JS.falsy v = true) →
          negb (JS.truthy (JS.get JS.Number (originalPrices w) itemId)) = true) as Hfalsy.
  { intros [-> | (v & Hv & Hf)]; [reflexivity |].
    rewrite (Hown v Hv). simpl. rewrite Hf. reflexivity. }
  unfold basePrice. repeat split.
  - intros v Hv Hf. rewrite (Hown v Hv). simpl. rewrite Hf. reflexivity.
  - intros entry p Hsnap -> Hp. rewrite (Hfalsy Hsnap). simpl. rewrite Hp. reflexivity.
  - intros Hsnap Hbook. rewrite (Hfalsy Hsnap).
    destruct Hbook as [-> | (entry & -> & Hp)]; simpl; [| rewrite Hp]; reflexivity.
Qed.

(** C2, as the specification words it, fails: a snapshot entry that is
    present but 0 is not used; the handbook price takes its place. *)
Lemma basePrice_snapshot_zero_counterexample :
  originalPrices Sample.world !! "z" = Some 0%float ∧
  findHandbook (handbookTable Sample.world) "z" = Some (mkHandbookItem "z" (Some 40%float)) ∧
  basePrice Sample.world "z" = JS.Number 40%float ∧
  basePrice Sample.world "z" ≠ JS.Number 0%float.
Proof.
  repeat split; try (vm_compute; reflexivity).
  intros H.
  assert (PrimFloat.eqb (JS.toNumber (basePrice Sample.world "z")) 0%float = true) as Heq
    by (rewrite H; reflexivity).
  vm_compute in Heq. discriminate Heq.
Qed.

(** ** One run of the [try] block *)

Lemma tryFetch_Throw E w error :
  failure (E (netCalls w)) = Some error → (tryFetch E w).1 = Throw error.
Proof.
  unfold failure, tryFetch.
  destruct (response (E (netCalls w))); simpl; try congruence.
  destruct (pricesWritable _); simpl; [| congruence].
  destruct (configWritable _); simpl; congruence.
Qed.

Lemma tryFetch_Return E w prices w1 :
  tryFetch E w = (Return prices, w1) →
  failure (E (netCalls w)) = None ∧
  response (E (netCalls w)) = Payload prices ∧
  netCalls w1 = S (netCalls w) ∧
  nextUpdate (config w1) = dateNow (E (netCalls w)) / 1000 + 3600 ∧
  configFile w1 = Some (Json (config w1)) ∧
  pricesFile w1 = Some (Json prices).
Proof.
  unfold failure, tryFetch.
  destruct (response (E (netCalls w))); try discriminate.
  destruct (pricesWritable _); try discriminate.
  destruct (configWritable _); try discriminate.
  intros H. inversion H; subst. repeat split.
Qed.

Lemma tryFetch_not_failure E w :
  failure (E (netCalls w)) = None → ∃ prices, (tryFetch E w).1 = Return prices.
Proof.
  unfold failure, tryFetch.
  destruct (response (E (netCalls w))); try discriminate.
  destruct (pricesWritable _); try discriminate.
  destruct (configWritable _); try discriminate.
  eexists. reflexivity.
Qed.

(** The handler, for one failed attempt of a live fetch. *)
Lemma fetchPrices_catch E retries w error :
  failure (E (netCalls w)) = Some error →
  let w1 := (tryFetch E (logger FetchingFleaPrices w)).2 in
  fetchPrices E true retries w =
  if retries <=? maxRetries (config w)
  then fetchPrices E true (retries + 1) (logger (ErrorRetrying retries) w1)
  else (Throw error, clearInterval (logger RetryCountReached w1)).
Proof.
  intros Hfail w1. rewrite fetchPrices_live_step.
  pose proof (tryFetch_Throw E (logger FetchingFleaPrices w) error Hfail) as Ht.
  subst w1. destruct (tryFetch E (logger FetchingFleaPrices w)) as [r w1].
  simpl in Ht. subst r. reflexivity.
Qed.

(** ** Retrying *)

(** With [n] retries left, [n + 1] failing answers exhaust the fetcher. *)
Lemma fetchPrices_exhausts E (n : nat) :
  ∀ retries w,
    Z.to_nat (maxRetries (config w) + 1 - retries) = n →
    (∀ i, (i ≤ n)%nat → is_Some (failure (E (netCalls w + i)%nat))) →
    ∃ error after,
      fetchPrices E true retries w = (Throw error, after) ∧
      failure (E (netCalls w + n)%nat) = Some error ∧
      netCalls after = (netCalls w + S n)%nat ∧
      timerActive after = false.
Proof.
  induction n as [| n IH]; intros retries w Hn Hall.
  - destruct (Hall 0%nat (le_n _)) as [error Herr].
    rewrite Nat.add_0_r in Herr.
    rewrite (fetchPrices_catch _ _ _ _ Herr).
    assert ((retries <=? maxRetries (config w)) = false) as -> by (apply Z.leb_gt; lia).
    exists error. eexists. split; [reflexivity |].
    rewrite Nat.add_0_r. split; [exact Herr |]. split; [| reflexivity].
    simpl. rewrite tryFetch_netCalls. simpl. lia.
  - destruct (Hall 0%nat (Nat.le_0_l _)) as [error Herr].
    rewrite Nat.add_0_r in Herr.
    rewrite (fetchPrices_catch _ _ _ _ Herr).
    assert ((retries <=? maxRetries (config w)) = true) as -> by (apply Z.leb_le; lia).
    set (w1 := (tryFetch E (logger FetchingFleaPrices w)).2).
    assert (netCalls (logger (ErrorRetrying retries) w1) = S (netCalls w)) as Hcalls
      by (subst w1; simpl; rewrite tryFetch_netCalls; reflexivity).
    assert (maxRetries (config (logger (ErrorRetrying retries) w1)) = maxRetries (config w))
      as Hmax by (subst w1; simpl; apply (tryFetch_same_host E (logger FetchingFleaPrices w))).
    destruct (IH (retries + 1) (logger (ErrorRetrying retries) w1)) as (e & after & Hf & He & Hc & Ht).
    + rewrite Hmax. lia.
    + intros i Hi. rewrite Hcalls.
      replace (S (netCalls w) + i)%nat with (netCalls w + S i)%nat by lia.
      apply Hall. lia.
    + exists e, after. split; [exact Hf |].
      rewrite Hcalls in He, Hc.
      replace (netCalls w + S n)%nat with (S (netCalls w) + n)%nat by lia.
      split; [exact He |]. split; [lia | exact Ht].
Qed.

(** With [n] retries left, one good answer among the next [n + 1] makes
    the fetcher return. *)
Lemma fetchPrices_recovers E (n : nat) :
  ∀ retries w,
    Z.to_nat (maxRetries (config w) + 1 - retries) = n →
    (∃ i, (i ≤ n)%nat ∧ failure (E (netCalls w + i)%nat) = None) →
    ∃ prices after, fetchPrices E true retries w = (Return prices, after).
Proof.
  induction n as [| n IH]; intros retries w Hn (i & Hi & Hok).
  - assert (i = 0%nat) as -> by lia. rewrite Nat.add_0_r in Hok.
    rewrite fetchPrices_live_step.
    destruct (tryFetch_not_failure E (logger FetchingFleaPrices w) Hok) as [prices Hp].
    destruct (tryFetch E (logger FetchingFleaPrices w)) as [r w1]. simpl in Hp. subst r.
    eauto.
  - destruct (failure (E (netCalls w))) as [error |] eqn:Hfirst.
    + rewrite (fetchPrices_catch _ _ _ _ Hfirst).
      assert ((retries <=? maxRetries (config w)) = true) as -> by (apply Z.leb_le; lia).
      set (w1 := (tryFetch E (logger FetchingFleaPrices w)).2).
      assert (netCalls (logger (ErrorRetrying retries) w1) = S (netCalls w)) as Hcalls
        by (subst w1; simpl; rewrite tryFetch_netCalls; reflexivity).
      assert (maxRetries (config (logger (ErrorRetrying retries) w1)) = maxRetries (config w))
        as Hmax by (subst w1; simpl; apply (tryFetch_same_host E (logger FetchingFleaPrices w))).
      apply IH; [rewrite Hmax; lia |].
      destruct i as [| i]; [rewrite Nat.add_0_r in Hok; congruence |].
      exists i. split; [lia |]. rewrite Hcalls.
      replace (S (netCalls w) + i)%nat with (netCalls w + S i)%nat by lia. exact Hok.
    + rewrite fetchPrices_live_step.
      destruct (tryFetch_not_failure E (logger FetchingFleaPrices w) Hfirst) as [prices Hp].
      destruct (tryFetch E (logger FetchingFleaPrices w)) as [r w1]. simpl in Hp. subst r.
      eauto.
Qed.

(** C3.  With [maxRetries = N >= 0], a fetcher whose first [N + 1]
    attempts all fail makes exactly [N + 1] requests, cancels the
    recurring timer and throws the failure of the last attempt; with one
    success among these attempts it returns and throws nothing. *)
Theorem retry_exhaustion E w (N : nat) :
  maxRetries (config w) = Z.of_nat N →
  ((∀ i, (i ≤ N)%nat → is_Some (failure (E (netCalls w + i)%nat))) →
   ∃ error after,
     fetchPrices E default_fetchPrices default_retries w = (Throw error, after) ∧
     failure (E (netCalls w + N)%nat) = Some error ∧
     netCalls after = (netCalls w + (N + 1))%nat ∧
     timerActive after = false) ∧
  ((∃ i, (i ≤ N)%nat ∧ failure (E (netCalls w + i)%nat) = None) →
   ∃ prices after,
     fetchPrices E default_fetchPrices default_retries w = (Return prices, after)).
Proof.
  intros HN. unfold default_fetchPrices, default_retries. split.
  - intros Hall.
    destruct (fetchPrices_exhausts E N 1 w) as (error & after & Hf & He & Hc & Ht);
      [rewrite HN; lia | exact Hall |].
    exists error, after. repeat split; try assumption. lia.
  - intros Hsome. apply (fetchPrices_recovers E N); [rewrite HN; lia | exact Hsome].
Qed.

Lemma retry_exhaustion_witness :
  ∃ error after,
    fetchPrices Sample.offline true 1 Sample.running = (Throw error, after) ∧
    failure (Sample.offline 2%nat) = Some error ∧
    netCalls after = 3%nat ∧
    timerActive after = false.
Proof.
  refine (proj1 (retry_exhaustion Sample.offline Sample.running 2 _) _).
  - reflexivity.
  - intros i _. eexists. reflexivity.
Defined.

(** ** A fetch that returns *)

Lemma fetchPrices_netCalls_mono E fetchPrices_ retries w :
  (netCalls w ≤ netCalls (fetchPrices E fetchPrices_ retries w).2)%nat.
Proof.
  funelim (fetchPrices E fetchPrices_ retries w); clear Heqcall.
  - unfold readPrices. destruct (pricesFile w) as [[?|]|]; simpl; lia.
  - pose proof (tryFetch_netCalls E (logger FetchingFleaPrices w)) as Ht.
    rewrite e in Ht. simpl in *. lia.
  - pose proof (tryFetch_netCalls E (logger FetchingFleaPrices w)) as Ht.
    rewrite Hcatch in Ht. simpl in *. lia.
  - pose proof (tryFetch_netCalls E (logger FetchingFleaPrices w)) as Ht.
    rewrite Hcatch in Ht. simpl in *. lia.
Qed.

(** A live fetch calls the network at least once. *)
Lemma fetchPrices_live_netCalls E retries w :
  (netCalls w < netCalls (fetchPrices E true retries w).2)%nat.
Proof.
  rewrite fetchPrices_live_step.
  pose proof (tryFetch_netCalls E (logger FetchingFleaPrices w)) as Ht.
  destruct (tryFetch E (logger FetchingFleaPrices w)) as [[prices | error] w1];
    simpl in *; [lia |].
  destruct (retries <=? maxRetries (config w)); simpl; [| lia].
  pose proof (fetchPrices_netCalls_mono E true (retries + 1)
                (logger (ErrorRetrying retries) w1)) as Hm.
  simpl in Hm. lia.
Qed.

(** The state in which a live fetch returns: the last request made is
    the one that was answered, and both files hold what was obtained. *)
Lemma fetchPrices_Return_state E fetchPrices_ retries w :
  ∀ prices after,
    fetchPrices_ || negb (existsSync (pricesFile w)) = true →
    fetchPrices E fetchPrices_ retries w = (Return prices, after) →
    (netCalls w < netCalls after)%nat ∧
    response (E (Nat.pred (netCalls after))) = Payload prices ∧
    nextUpdate (config after) = dateNow (E (Nat.pred (netCalls after))) / 1000 + 3600 ∧
    configFile after = Some (Json (config after)) ∧
    pricesFile after = Some (Json prices).
Proof.
  funelim (fetchPrices E fetchPrices_ retries w); clear Heqcall;
    intros prices' after Hlive Hret.
  - congruence.
  - inversion Hret; subst.
    pose proof (tryFetch_Return _ _ _ _ e) as (_ & Hresp & Hcalls & Hnext & Hcfg & Hfile).
    simpl in *. rewrite Hcalls. simpl. repeat split; try assumption. lia.
  - destruct (H prices' after eq_refl Hret) as (Hlt & Hrest).
    split; [| exact Hrest].
    pose proof (tryFetch_netCalls E (logger FetchingFleaPrices w)) as Ht.
    rewrite Hcatch in Ht. simpl in *. lia.
  - discriminate Hret.
Qed.

(** C5.  When a live fetch returns, [nextUpdate] of the Config is the
    epoch second of the clock reading of the answered attempt plus 3600,
    the config file holds that Config, and the price cache file holds
    exactly the payload that is returned. *)
Theorem successful_fetch_persists E fetchPrices_ retries w prices after :
  fetchPrices_ = true ∨ existsSync (pricesFile w) = false →
  fetchPrices E fetchPrices_ retries w = (Return prices, after) →
  let answered := E (Nat.pred (netCalls after)) in
  response answered = Payload prices ∧
  nextUpdate (config after) = dateNow answered / 1000 + 3600 ∧
  configFile after = Some (Json (config after)) ∧
  pricesFile after = Some (Json prices).
Proof.
  intros Hlive Hret answered.
  apply (fetchPrices_Return_state E fetchPrices_ retries w prices after); [| exact Hret].
  destruct Hlive as [-> | ->]; [reflexivity | apply orb_true_r].
Qed.

Lemma successful_fetch_persists_witness :
  let after := (fetchPrices Sample.flaky true 1 Sample.running).2 in
  response (Sample.flaky 2%nat) = Payload Sample.payload ∧
  nextUpdate (config after) = 3609 ∧
  configFile after = Some (Json (mkConfig 2 3609 1.5%float)) ∧
  pricesFile after = Some (Json Sample.payload).
Proof.
  refine (successful_fetch_persists Sample.flaky true 1 Sample.running
            Sample.payload
            (fetchPrices Sample.flaky true 1 Sample.running).2 _ _).
  - left. reflexivity.
  - vm_compute. reflexivity.
Defined.

(** C6.  Called with [fetchPrices = false] while the price cache file
    exists, the fetcher changes nothing (no request, no write) and
    returns the parsed content of the file. *)
Theorem cached_prices_returned E retries w :
  existsSync (pricesFile w) = true →
  (fetchPrices E false retries w).2 = w ∧
  ∀ cached, pricesFile w = Some (Json cached) →
            fetchPrices E false retries w = (Return cached, w).
Proof.
  intros Hex. rewrite fetchPrices_step, Hex. simpl. unfold readPrices.
  split.
  - destruct (pricesFile w) as [[? |] |]; reflexivity.
  - intros cached ->. reflexivity.
Qed.

Lemma cached_prices_returned_witness :
  fetchPrices Sample.online false 1 Sample.running = (Return Sample.cached, Sample.running).
Proof.
  refine (proj2 (cached_prices_returned Sample.online 1 Sample.running _) Sample.cached _).
  - reflexivity.
  - reflexivity.
Defined.

(** ** The top level *)

Lemma applyPrices_netCalls prices w : netCalls (applyPrices prices w) = netCalls w.
Proof.
  unfold applyPrices.
  apply (map_fold_weak_ind (λ w' (_ : gmap string number), netCalls w' = netCalls w)).
  - reflexivity.
  - intros k v m w' _ IH. rewrite <- IH. unfold applyItem.
    destruct (negb _); [reflexivity |].
    destruct (_ && _); reflexivity.
Qed.


Lemma Rev2_updatePrices_netCalls E w :
  (netCalls w < netCalls (Rev2.updatePrices E w).2)%nat.
Proof.
  pose proof (fetchPrices_live_netCalls E default_retries w) as Hlive.
  rewrite <- Rev2_fetchPrices_eq in Hlive. unfold Rev2.updatePrices.
  destruct (Rev2.fetchPrices E default_retries w) as [[prices | error] w1]; simpl in *.
  - rewrite applyPrices_netCalls. exact Hlive.
  - exact Hlive.
Qed.


(** ** Failures of the two writes *)

Lemma persistFails_failure a :
  persistFails a →
  failure a = Some PricesWriteError ∨ failure a = Some ConfigWriteError.
Proof.
  intros (prices & Hresp & Hw). unfold failure. rewrite Hresp.
  destruct (pricesWritable a); [| left; reflexivity].
  destruct (configWritable a); [discriminate Hw | right; reflexivity].
Qed.

(** C10.  A write of the price cache file or of the config file that
    throws after the payload was received lands in the handler of the
    network failures: while [retries <= maxRetries] the fetcher starts
    over with a new request and [retries + 1]; afterwards it cancels the
    timer and throws the write error.  With [maxRetries = N] and [N + 1]
    such failures in a row this makes [N + 1] requests. *)
Theorem persist_failure_is_retried E w (N : nat) :
  maxRetries (config w) = Z.of_nat N →
  persistFails (E (netCalls w)) →
  let w1 := (tryFetch E (logger FetchingFleaPrices w)).2 in
  (∃ error,
     (error = PricesWriteError ∨ error = ConfigWriteError) ∧
     ∀ retries,
       (retries ≤ Z.of_nat N →
        fetchPrices E true retries w =
        fetchPrices E true (retries + 1) (logger (ErrorRetrying retries) w1) ∧
        (netCalls w + 2 ≤ netCalls (fetchPrices E true retries w).2)%nat) ∧
       (Z.of_nat N < retries →
        fetchPrices E true retries w =
        (Throw error, clearInterval (logger RetryCountReached w1)))) ∧
  ((∀ i, (i ≤ N)%nat → persistFails (E (netCalls w + i)%nat)) →
   ∃ error after,
     fetchPrices E default_fetchPrices default_retries w = (Throw error, after) ∧
     (error = PricesWriteError ∨ error = ConfigWriteError) ∧
     netCalls after = (netCalls w + (N + 1))%nat ∧
     timerActive after = false).
Proof.
  intros HN Hfirst w1. split.
  - destruct (persistFails_failure _ Hfirst) as [Herr | Herr];
      [exists PricesWriteError | exists ConfigWriteError];
      (split; [tauto |]); intros retries;
      rewrite (fetchPrices_catch _ retries _ _ Herr); fold w1; rewrite HN;
      (split; intros Hcmp;
       [ assert ((retries <=? Z.of_nat N) = true) as -> by (apply Z.leb_le; lia);
         split; [reflexivity |];
         pose proof (fetchPrices_live_netCalls E (retries + 1)
                       (logger (ErrorRetrying retries) w1)) as Hlt;
         simpl in Hlt; subst w1; rewrite tryFetch_netCalls in Hlt; simpl in Hlt; lia
       | assert ((retries <=? Z.of_nat N) = false) as -> by (apply Z.leb_gt; lia);
         reflexivity ]).
  - intros Hall.
    destruct (fetchPrices_exhausts E N 1 w) as (error & after & Hf & He & Hc & Ht).
    + rewrite HN. lia.
    + intros i Hi. destruct (persistFails_failure _ (Hall i Hi)) as [-> | ->]; eauto.
    + exists error, after. split; [exact Hf |].
      split; [| split; [lia | exact Ht]].
      destruct (persistFails_failure _ (Hall N (le_n _))) as [H' | H'];
        rewrite H' in He; inversion He; tauto.
Qed.

Lemma persist_failure_is_retried_witness :
  ∃ error after,
    fetchPrices Sample.readonly true 1 Sample.running = (Throw error, after) ∧
    (error = PricesWriteError ∨ error = ConfigWriteError) ∧
    netCalls after = 3%nat ∧
    timerActive after = false.
Proof.
  refine (proj2 (persist_failure_is_retried Sample.readonly Sample.running 2 _ _) _).
  - reflexivity.
  - exists Sample.payload. split; reflexivity.
  - intros i _. exists Sample.payload. split; reflexivity.
Defined.

(** ** The scenario of the specification

    Base price 100 and [maxIncreaseMult = 1.5]: a fetched 200 is stored
    as 150 and a fetched 120 as 120; an item without snapshot and
    handbook price is stored as 0 whatever was fetched. *)

Example scenario_clamped : clamped Sample.world "a" 200%float = 150%float.
Proof. reflexivity. Qed.

Example scenario_passed_through : clamped Sample.world "a" 120%float = 120%float.
Proof. reflexivity. Qed.

Example scenario_unknown_base : clamped Sample.world "b" 50%float = 0%float.
Proof. reflexivity. Qed.

Example scenario_cycle :
  map_to_list (priceTable (Rev2.updatePrices Sample.online Sample.world).2) =
  [("q", 7%float); ("a", 150%float); ("z", 30%float); ("b", 0%float)].
Proof. vm_compute. reflexivity. Qed.

(** The same cycle in [src/mod.ts] as written: it returns [true] with the
    table untouched, and the fetch it left behind then completes. *)
Example scenario_cycle_as_written :
  (updatePrices Sample.online None Sample.world).1 = Return true ∧
  map_to_list (priceTable (updatePrices Sample.online None Sample.world).2) =
  [("q", 7%float); ("a", 100%float); ("z", 0%float)] ∧
  (detachedFetch Sample.online (updatePrices Sample.online None Sample.world).2).1 =
  Return Sample.payload.
Proof. repeat split; vm_compute; reflexivity. Qed.

(** * Further properties of the code *)

(** ** The two revisions *)

(** X1.  The fetcher of the second revision is the fetcher of [src/mod.ts]
    asked for a live fetch: same result and same state, for every
    [retries]. *)
Theorem revisions_agree E retries w :
  Rev2.fetchPrices E retries w = fetchPrices E true retries w.
Proof. apply Rev2_fetchPrices_eq. Qed.

(** ** The branch that reads the cache *)

(** X2.  Without a price cache file a call with [fetchPrices = false] is a live
    fetch all the same. *)
Theorem missing_cache_forces_live_fetch E retries w :
  pricesFile w = None →
  fetchPrices E false retries w = fetchPrices E true retries w ∧
  (netCalls w < netCalls (fetchPrices E false retries w).2)%nat.
Proof.
  intros Hnone.
  assert (fetchPrices E false retries w = fetchPrices E true retries w) as Heq
    by (rewrite (fetchPrices_step E false), (fetchPrices_step E true), Hnone; reflexivity).
  split; [exact Heq |]. rewrite Heq. apply fetchPrices_live_netCalls.
Qed.

Lemma missing_cache_forces_live_fetch_witness :
  fetchPrices Sample.online false 1 Sample.world =
  fetchPrices Sample.online true 1 Sample.world ∧
  (netCalls Sample.world < netCalls (fetchPrices Sample.online false 1 Sample.world).2)%nat.
Proof.
  refine (missing_cache_forces_live_fetch Sample.online 1 Sample.world _).
  reflexivity.
Defined.

(** X3.  A price cache file that does not parse makes the call with
    [fetchPrices = false] throw at once: the read sits outside the [try]
    block, so nothing is retried, no request is made, no file is written
    and a running timer keeps running. *)
Theorem malformed_cache_not_retried E retries w :
  pricesFile w = Some Malformed →
  fetchPrices E false retries w = (Throw CacheReadError, w).
Proof.
  intros Hbad. rewrite fetchPrices_step, Hbad. simpl.
  unfold readPrices. rewrite Hbad. reflexivity.
Qed.

Lemma malformed_cache_not_retried_witness :
  fetchPrices Sample.online false 1 Scenario.corrupted =
  (Throw CacheReadError, Scenario.corrupted) ∧
  timerActive Scenario.corrupted = true.
Proof.
  split; [| reflexivity].
  refine (malformed_cache_not_retried Sample.online 1 Scenario.corrupted _).
  reflexivity.
Defined.

(** ** Bounds on the retries *)

Lemma catch_maxRetries E w r w1 :
  tryFetch E (logger FetchingFleaPrices w) = (r, w1) →
  maxRetries (config w1) = maxRetries (config w) ∧ netCalls w1 = S (netCalls w).
Proof.
  intros H.
  pose proof (tryFetch_same_host E (logger FetchingFleaPrices w)) as Hh.
  pose proof (tryFetch_netCalls E (logger FetchingFleaPrices w)) as Hn.
  rewrite H in Hh, Hn. simpl in *. split; [apply Hh | exact Hn].
Qed.

(** X4.  One call of the fetcher makes at most one request more than there
    are retries left, [max(0, maxRetries + 1 - retries)], and a live
    fetch makes at least one. *)
Theorem fetch_request_bound E fetchPrices_ retries w :
  (netCalls (fetchPrices E fetchPrices_ retries w).2 ≤
   netCalls w + S (Z.to_nat (maxRetries (config w) + 1 - retries)))%nat ∧
  (netCalls w < netCalls (fetchPrices E true retries w).2)%nat.
Proof.
  split; [| apply fetchPrices_live_netCalls].
  funelim (fetchPrices E fetchPrices_ retries w); clear Heqcall.
  - unfold readPrices. destruct (pricesFile w) as [[? |] |]; simpl; lia.
  - destruct (catch_maxRetries _ _ _ _ e) as [_ Hn]. simpl. lia.
  - destruct (catch_maxRetries _ _ _ _ Hcatch) as [Hm Hn].
    simpl in H. rewrite Hm, Hn in H.
    pose proof (proj1 (Z.leb_le _ _) Hle). lia.
  - destruct (catch_maxRetries _ _ _ _ Hcatch) as [_ Hn]. simpl. lia.
Qed.

(** With [k] retries available, the payload of the first attempt that
    does not fail is what the fetcher returns, and no request follows
    it. *)
Lemma fetchPrices_first_success E (k : nat) :
  ∀ retries w prices,
    Z.of_nat k ≤ maxRetries (config w) + 1 - retries →
    (∀ i, (i < k)%nat → is_Some (failure (E (netCalls w + i)%nat))) →
    failure (E (netCalls w + k)%nat) = None →
    response (E (netCalls w + k)%nat) = Payload prices →
    ∃ after,
      fetchPrices E true retries w = (Return prices, after) ∧
      netCalls after = (netCalls w + S k)%nat.
Proof.
  induction k as [| k IH]; intros retries w prices Hk Hbefore Hok Hresp.
  - rewrite Nat.add_0_r in Hok, Hresp. rewrite fetchPrices_live_step.
    destruct (tryFetch_not_failure E (logger FetchingFleaPrices w) Hok) as [prices' Hp].
    destruct (tryFetch E (logger FetchingFleaPrices w)) as [r w1] eqn:Htry.
    simpl in Hp. subst r.
    destruct (tryFetch_Return _ _ _ _ Htry) as (_ & Hresp' & Hcalls & _).
    simpl in Hresp', Hcalls. rewrite Hresp in Hresp'. inversion Hresp'; subst prices'.
    exists w1. split; [reflexivity | lia].
  - destruct (Hbefore 0%nat (Nat.lt_0_succ _)) as [error Herr].
    rewrite Nat.add_0_r in Herr.
    rewrite (fetchPrices_catch _ _ _ _ Herr).
    assert ((retries <=? maxRetries (config w)) = true) as -> by (apply Z.leb_le; lia).
    destruct (tryFetch E (logger FetchingFleaPrices w)) as [r w1] eqn:Htry.
    destruct (catch_maxRetries _ _ _ _ Htry) as [Hm Hn]. simpl.
    destruct (IH (retries + 1) (logger (ErrorRetrying retries) w1) prices)
      as (after & Hret & Hcalls); simpl.
    + rewrite Hm. lia.
    + intros i Hi. rewrite Hn.
      replace (S (netCalls w) + i)%nat with (netCalls w + S i)%nat by lia.
      apply Hbefore. lia.
    + rewrite Hn. replace (S (netCalls w) + k)%nat with (netCalls w + S k)%nat by lia.
      exact Hok.
    + rewrite Hn. replace (S (netCalls w) + k)%nat with (netCalls w + S k)%nat by lia.
      exact Hresp.
    + exists after. split; [exact Hret |]. simpl in Hcalls. rewrite Hn in Hcalls. lia.
Qed.

(** X5.  With [maxRetries = N], when attempt number [k + 1 <= N + 1] is the
    first one that does not fail, the fetcher returns the payload of that
    attempt after exactly [k + 1] requests. *)
Theorem first_success_is_returned E w (N k : nat) prices :
  maxRetries (config w) = Z.of_nat N →
  (k ≤ N)%nat →
  (∀ i, (i < k)%nat → is_Some (failure (E (netCalls w + i)%nat))) →
  failure (E (netCalls w + k)%nat) = None →
  response (E (netCalls w + k)%nat) = Payload prices →
  ∃ after,
    fetchPrices E default_fetchPrices default_retries w = (Return prices, after) ∧
    netCalls after = (netCalls w + (k + 1))%nat.
Proof.
  intros HN Hk Hbefore Hok Hresp.
  destruct (fetchPrices_first_success E k 1 w prices) as (after & Hret & Hcalls);
    try assumption; [rewrite HN; lia |].
  exists after. split; [exact Hret | lia].
Qed.

Lemma first_success_is_returned_witness :
  ∃ after,
    fetchPrices Sample.flaky true 1 Sample.running = (Return Sample.payload, after) ∧
    netCalls after = 3%nat.
Proof.
  refine (first_success_is_returned Sample.flaky Sample.running 2 2 Sample.payload
            _ _ _ _ _).
  - reflexivity.
  - lia.
  - intros i Hi. destruct i as [| [| i]]; [eexists; reflexivity .. | lia].
  - reflexivity.
  - reflexivity.
Defined.

(** ** What a call of the fetcher does to the timer and the files *)

Lemma fetchPrices_timer E fetchPrices_ retries w :
  ∀ res after,
    fetchPrices E fetchPrices_ retries w = (res, after) →
    match res with
    | Return _ => timerActive after = timerActive w
    | Throw _ =>
        fetchPrices_ || negb (existsSync (pricesFile w)) = true →
        timerActive after = false
    end.
Proof.
  funelim (fetchPrices E fetchPrices_ retries w); clear Heqcall; intros res after Hres.
  - unfold readPrices in Hres.
    destruct (pricesFile w) as [[? |] |]; inversion Hres; subst;
      try reflexivity; congruence.
  - inversion Hres; subst.
    pose proof (tryFetch_timerActive E (logger FetchingFleaPrices w)) as Ht.
    rewrite e in Ht. exact Ht.
  - pose proof (tryFetch_timerActive E (logger FetchingFleaPrices w)) as Ht.
    rewrite Hcatch in Ht. simpl in Ht.
    specialize (H res after Hres). destruct res.
    + simpl in H. congruence.
    + intros _. apply H. reflexivity.
  - inversion Hres; subst. intros _. reflexivity.
Qed.

(** X6.  A call of the fetcher that returns leaves the timer as it was; a live
    fetch that throws leaves it cancelled. *)
Theorem fetch_timer_discipline E fetchPrices_ retries w res after :
  fetchPrices E fetchPrices_ retries w = (res, after) →
  match res with
  | Return _ => timerActive after = timerActive w
  | Throw _ =>
      fetchPrices_ = true ∨ existsSync (pricesFile w) = false →
      timerActive after = false
  end.
Proof.
  intros Hres. pose proof (fetchPrices_timer _ _ _ _ _ _ Hres) as H.
  destruct res; [exact H |].
  intros [-> | Hno]; apply H; [reflexivity |].
  rewrite Hno. apply orb_true_r.
Qed.

Lemma fetch_timer_discipline_witness :
  timerActive (fetchPrices Sample.flaky true 1 Sample.running).2 = true.
Proof.
  refine (fetch_timer_discipline Sample.flaky true 1 Sample.running
            (Return Sample.payload)
            (fetchPrices Sample.flaky true 1 Sample.running).2 _).
  vm_compute. reflexivity.
Defined.

Lemma tryFetch_Throw_configFile E w error w1 :
  tryFetch E w = (Throw error, w1) → configFile w1 = configFile w.
Proof.
  unfold tryFetch.
  destruct (response (E (netCalls w))); [intros H; inversion H; reflexivity .. |].
  destruct (pricesWritable _); [| intros H; inversion H; reflexivity].
  destruct (configWritable _); intros H; inversion H; reflexivity.
Qed.

Lemma tryFetch_ConfigWriteError E w w1 :
  tryFetch E w = (Throw ConfigWriteError, w1) →
  netCalls w1 = S (netCalls w) ∧
  ∃ prices,
    response (E (netCalls w)) = Payload prices ∧
    pricesFile w1 = Some (Json prices) ∧
    nextUpdate (config w1) = dateNow (E (netCalls w)) / 1000 + 3600.
Proof.
  unfold tryFetch.
  destruct (response (E (netCalls w))); [intros H; inversion H .. |].
  destruct (pricesWritable _); [| intros H; inversion H].
  destruct (configWritable _); intros H; inversion H; subst.
  split; [reflexivity |]. eexists. repeat split.
Qed.

Lemma fetchPrices_Throw_configFile E fetchPrices_ retries w :
  ∀ error after,
    fetchPrices E fetchPrices_ retries w = (Throw error, after) →
    configFile after = configFile w.
Proof.
  funelim (fetchPrices E fetchPrices_ retries w); clear Heqcall; intros err after Hres.
  - unfold readPrices in Hres.
    destruct (pricesFile w) as [[? |] |]; inversion Hres; reflexivity.
  - discriminate Hres.
  - rewrite (H err after Hres). simpl.
    apply (tryFetch_Throw_configFile _ _ _ _ Hcatch).
  - inversion Hres; subst. simpl.
    apply (tryFetch_Throw_configFile _ _ _ _ Hcatch).
Qed.

(** X7.  A call of the fetcher that throws has not written the config file. *)
Theorem failed_fetch_keeps_config_file E fetchPrices_ retries w error after :
  fetchPrices E fetchPrices_ retries w = (Throw error, after) →
  configFile after = configFile w.
Proof. apply fetchPrices_Throw_configFile. Qed.

Lemma failed_fetch_keeps_config_file_witness :
  configFile (fetchPrices Scenario.lockedConfig true 1 Sample.running).2 =
  Some (Json Sample.cfg).
Proof.
  refine (failed_fetch_keeps_config_file Scenario.lockedConfig true 1 Sample.running
            ConfigWriteError
            (fetchPrices Scenario.lockedConfig true 1 Sample.running).2 _).
  vm_compute. reflexivity.
Defined.

(** X8.  When the fetcher gives up on a failed write of the config file, the
    price cache file already holds the payload of the last request and
    [Mod.config.nextUpdate] is already advanced, while the config file
    still holds the old Config. *)
Theorem config_write_failure_is_half_done E fetchPrices_ retries w after :
  fetchPrices E fetchPrices_ retries w = (Throw ConfigWriteError, after) →
  let last := E (Nat.pred (netCalls after)) in
  configFile after = configFile w ∧
  nextUpdate (config after) = dateNow last / 1000 + 3600 ∧
  ∃ prices, response last = Payload prices ∧ pricesFile after = Some (Json prices).
Proof.
  intros Hres last. split; [exact (fetchPrices_Throw_configFile _ _ _ _ _ _ Hres) |].
  subst last. revert after Hres.
  funelim (fetchPrices E fetchPrices_ retries w); clear Heqcall; intros after Hres.
  - unfold readPrices in Hres.
    destruct (pricesFile w) as [[? |] |]; inversion Hres.
  - discriminate Hres.
  - apply (H after Hres).
  - inversion Hres; subst.
    destruct (tryFetch_ConfigWriteError _ _ _ Hcatch) as (Hn & prices & Hresp & Hfile & Hnext).
    simpl in *. rewrite Hn. simpl. split; [exact Hnext |].
    exists prices. split; assumption.
Qed.

Lemma config_write_failure_is_half_done_witness :
  let after := (fetchPrices Scenario.lockedConfig true 1 Sample.running).2 in
  configFile after = Some (Json Sample.cfg) ∧
  nextUpdate (config after) = 3605 ∧
  ∃ prices, response (Scenario.lockedConfig 2%nat) = Payload prices ∧
            pricesFile after = Some (Json prices).
Proof.
  refine (config_write_failure_is_half_done Scenario.lockedConfig true 1 Sample.running
            (fetchPrices Scenario.lockedConfig true 1 Sample.running).2 _).
  vm_compute. reflexivity.
Defined.

(** ** What a merge cycle keeps *)

Lemma applyPrices_preserves {A} (f : World → A) :
  (∀ itemId fetched w, f (applyItem itemId fetched w) = f w) →
  ∀ prices w, f (applyPrices prices w) = f w.
Proof.
  intros Hstep prices w. unfold applyPrices.
  apply (map_fold_weak_ind (λ w' (_ : gmap string number), f w' = f w)).
  - reflexivity.
  - intros k v m w' _ IH. rewrite Hstep. exact IH.
Qed.

Lemma applyItem_dynamicPriceRuns itemId fetched w :
  dynamicPriceRuns (applyItem itemId fetched w) = dynamicPriceRuns w.
Proof.
  unfold applyItem. destruct (negb _); [reflexivity |].
  destruct (_ && _); reflexivity.
Qed.

Lemma tryFetch_dynamicPriceRuns E w :
  dynamicPriceRuns (tryFetch E w).2 = dynamicPriceRuns w.
Proof.
  unfold tryFetch.
  destruct (response (E (netCalls w))); [reflexivity .. |].
  destruct (pricesWritable _); [| reflexivity].
  destruct (configWritable _); reflexivity.
Qed.

Lemma fetchPrices_dynamicPriceRuns E fetchPrices_ retries w :
  dynamicPriceRuns (fetchPrices E fetchPrices_ retries w).2 = dynamicPriceRuns w.
Proof.
  funelim (fetchPrices E fetchPrices_ retries w); clear Heqcall.
  - unfold readPrices. destruct (pricesFile w) as [[? |] |]; reflexivity.
  - pose proof (tryFetch_dynamicPriceRuns E (logger FetchingFleaPrices w)) as Ht.
    rewrite e in Ht. exact Ht.
  - pose proof (tryFetch_dynamicPriceRuns E (logger FetchingFleaPrices w)) as Ht.
    rewrite Hcatch in Ht. simpl in *. congruence.
  - pose proof (tryFetch_dynamicPriceRuns E (logger FetchingFleaPrices w)) as Ht.
    rewrite Hcatch in Ht. exact Ht.
Qed.

Lemma updatePrices_reference E arg w :
  itemTable (updatePrices E arg w).2 = itemTable w ∧
  originalPrices (updatePrices E arg w).2 = originalPrices w ∧
  handbookTable (updatePrices E arg w).2 = handbookTable w ∧
  maxIncreaseMult (config (updatePrices E arg w).2) = maxIncreaseMult (config w) ∧
  maxRetries (config (updatePrices E arg w).2) = maxRetries (config w).
Proof. rewrite updatePrices_state. repeat split. Qed.

Lemma Rev2_updatePrices_reference E w :
  itemTable (Rev2.updatePrices E w).2 = itemTable w ∧
  originalPrices (Rev2.updatePrices E w).2 = originalPrices w ∧
  handbookTable (Rev2.updatePrices E w).2 = handbookTable w ∧
  maxIncreaseMult (config (Rev2.updatePrices E w).2) = maxIncreaseMult (config w) ∧
  maxRetries (config (Rev2.updatePrices E w).2) = maxRetries (config w).
Proof.
  pose proof (fetchPrices_same_host E true default_retries w)
    as (_ & Hi & Ho & Hh & Hm & Hr).
  rewrite <- Rev2_fetchPrices_eq in Hi, Ho, Hh, Hm, Hr.
  unfold Rev2.updatePrices.
  destruct (Rev2.fetchPrices E default_retries w) as [[prices | error] w1];
    simpl in *; [| tauto].
  destruct (applyPrices_lookup prices (logger ApplyingFleaData w1))
    as [(Hc' & Hi' & Ho' & Hh') _].
  simpl in *. rewrite Hc', Hi', Ho', Hh'. tauto.
Qed.

Lemma reference_maxPrice w w' itemId :
  originalPrices w' = originalPrices w →
  handbookTable w' = handbookTable w →
  maxIncreaseMult (config w') = maxIncreaseMult (config w) →
  maxPrice w' itemId = maxPrice w itemId.
Proof.
  intros Ho Hh Hm. unfold maxPrice, basePrice. rewrite Ho, Hh, Hm. reflexivity.
Qed.

Lemma updatePrices_maxPrice E arg w itemId :
  maxPrice (updatePrices E arg w).2 itemId = maxPrice w itemId.
Proof.
  destruct (updatePrices_reference E arg w) as (_ & Ho & Hh & Hm & _).
  apply reference_maxPrice; assumption.
Qed.

Lemma Rev2_updatePrices_maxPrice E w itemId :
  maxPrice (Rev2.updatePrices E w).2 itemId = maxPrice w itemId.
Proof.
  destruct (Rev2_updatePrices_reference E w) as (_ & Ho & Hh & Hm & _).
  apply reference_maxPrice; assumption.
Qed.

(** X9.  A merge cycle, whether it returns or throws, changes neither the
    snapshot nor the item table, the handbook, [maxIncreaseMult] or
    [maxRetries]; so every item has the same [maxPrice] in every cycle.
    This holds of [src/mod.ts] and of the second revision. *)
Theorem cycle_keeps_reference_data E arg w :
  (originalPrices (updatePrices E arg w).2 = originalPrices w ∧
   itemTable (updatePrices E arg w).2 = itemTable w ∧
   handbookTable (updatePrices E arg w).2 = handbookTable w ∧
   maxIncreaseMult (config (updatePrices E arg w).2) = maxIncreaseMult (config w) ∧
   maxRetries (config (updatePrices E arg w).2) = maxRetries (config w) ∧
   ∀ itemId, maxPrice (updatePrices E arg w).2 itemId = maxPrice w itemId) ∧
  (originalPrices (Rev2.updatePrices E w).2 = originalPrices w ∧
   itemTable (Rev2.updatePrices E w).2 = itemTable w ∧
   handbookTable (Rev2.updatePrices E w).2 = handbookTable w ∧
   maxIncreaseMult (config (Rev2.updatePrices E w).2) = maxIncreaseMult (config w) ∧
   maxRetries (config (Rev2.updatePrices E w).2) = maxRetries (config w) ∧
   ∀ itemId, maxPrice (Rev2.updatePrices E w).2 itemId = maxPrice w itemId).
Proof.
  split.
  - destruct (updatePrices_reference E arg w) as (Hi & Ho & Hh & Hm & Hr).
    repeat split; try assumption; intros itemId; apply updatePrices_maxPrice.
  - destruct (Rev2_updatePrices_reference E w) as (Hi & Ho & Hh & Hm & Hr).
    repeat split; try assumption; intros itemId; apply Rev2_updatePrices_maxPrice.
Qed.

(** X10.  The host's dynamic prices are regenerated exactly once by a cycle
    that returns and not at all by a cycle that throws, in [src/mod.ts]
    and in the second revision. *)
Theorem cycle_regenerates_once E arg w :
  match updatePrices E arg w with
  | (Return _, after) => dynamicPriceRuns after = S (dynamicPriceRuns w)
  | (Throw _, after) => dynamicPriceRuns after = dynamicPriceRuns w
  end ∧
  match Rev2.updatePrices E w with
  | (Return _, after) => dynamicPriceRuns after = S (dynamicPriceRuns w)
  | (Throw _, after) => dynamicPriceRuns after = dynamicPriceRuns w
  end.
Proof.
  split; [reflexivity |].
  pose proof (fetchPrices_dynamicPriceRuns E true default_retries w) as Hf.
  rewrite <- Rev2_fetchPrices_eq in Hf. unfold Rev2.updatePrices.
  destruct (Rev2.fetchPrices E default_retries w) as [[prices | error] w1];
    simpl in *; [| exact Hf].
  rewrite (applyPrices_preserves dynamicPriceRuns applyItem_dynamicPriceRuns).
  simpl. rewrite Hf. reflexivity.
Qed.

(** ** What a merge cycle stores *)

(** X11.  In the second revision, whenever [maxPrice] of a processed item
    is a number (it compares [<=] to itself, which only NaN does not),
    the stored price is at most [maxPrice]. *)
Theorem cycle_price_bound E w prices w1 itemId fetchedValue :
  Rev2.fetchPrices E default_retries w = (Return prices, w1) →
  prices !! itemId = Some fetchedValue →
  is_Some (itemTable w !! itemId) →
  itemId ≠ "__proto__" →
  JS.le (maxPrice w itemId) (maxPrice w itemId) = true →
  ∃ stored,
    priceTable (Rev2.updatePrices E w).2 !! itemId = Some stored ∧
    JS.le stored (maxPrice w itemId) = true.
Proof.
  intros Hfetch Hin Hitem Hproto Hnum.
  rewrite (Rev2_updatePrices_known _ _ _ _ _ _ Hfetch Hin Hitem Hproto).
  eexists. split; [reflexivity |]. unfold clamped.
  destruct (JS.strict_ne (maxPrice w itemId) 0%float); simpl; [| exact Hnum].
  destruct (JS.le fetchedValue (maxPrice w itemId)) eqn:Hle; [exact Hle | exact Hnum].
Qed.

Lemma cycle_price_bound_witness :
  ∃ stored,
    priceTable (Rev2.updatePrices Sample.online Sample.world).2 !! "a" = Some stored ∧
    JS.le stored (maxPrice Sample.world "a") = true.
Proof.
  refine (cycle_price_bound Sample.online Sample.world Sample.payload
            (Rev2.fetchPrices Sample.online 1 Sample.world).2
            "a" 200%float _ _ _ _ _).
  - vm_compute. reflexivity.
  - vm_compute. reflexivity.
  - eexists. vm_compute. reflexivity.
  - discriminate.
  - vm_compute. reflexivity.
Defined.

Lemma Rev2_cycle_idempotent E w prices w1 w2 :
  Rev2.fetchPrices E default_retries w = (Return prices, w1) →
  Rev2.fetchPrices E default_retries (Rev2.updatePrices E w).2 = (Return prices, w2) →
  priceTable (Rev2.updatePrices E (Rev2.updatePrices E w).2).2 =
  priceTable (Rev2.updatePrices E w).2.
Proof.
  intros Hfirst Hsecond. apply map_eq. intros itemId.
  rewrite (Rev2_updatePrices_lookup _ _ _ _ itemId Hsecond).
  destruct (prices !! itemId) as [fetched |] eqn:Hin; [| reflexivity].
  destruct (Rev2_updatePrices_reference E w) as (Hi & _).
  unfold visible at 1. rewrite Hi. fold (visible w itemId).
  destruct (visible w itemId) eqn:Hvis; [| reflexivity].
  unfold clamped at 1. rewrite Rev2_updatePrices_maxPrice. fold (clamped w itemId fetched).
  rewrite JS_set_same.
  rewrite (Rev2_updatePrices_lookup _ _ _ _ itemId Hfirst), Hin, Hvis, JS_set_same.
  destruct (bool_decide (itemId = "__proto__")); simpl; [| reflexivity].
  destruct (bool_decide (priceTable w !! itemId = None)); reflexivity.
Qed.

(** X12.  Clamping does not compound: a second cycle that fetches the same
    payload leaves the host price table as the first cycle left it,
    because the bound comes from the snapshot and not from the live
    table.  This holds of [src/mod.ts] and of the second revision. *)
Theorem cycle_idempotent E w prices :
  (∀ arg arg' w1 w2,
     fetchPrices E default_fetchPrices default_retries w = (Return prices, w1) →
     fetchPrices E default_fetchPrices default_retries (updatePrices E arg w).2
     = (Return prices, w2) →
     priceTable (updatePrices E arg' (updatePrices E arg w).2).2 =
     priceTable (updatePrices E arg w).2) ∧
  (∀ w1 w2,
     Rev2.fetchPrices E default_retries w = (Return prices, w1) →
     Rev2.fetchPrices E default_retries (Rev2.updatePrices E w).2 = (Return prices, w2) →
     priceTable (Rev2.updatePrices E (Rev2.updatePrices E w).2).2 =
     priceTable (Rev2.updatePrices E w).2).
Proof.
  split; [reflexivity |].
  intros w1 w2. apply Rev2_cycle_idempotent.
Qed.

Lemma cycle_idempotent_witness :
  priceTable (Rev2.updatePrices Sample.online
                (Rev2.updatePrices Sample.online Sample.world).2).2 =
  priceTable (Rev2.updatePrices Sample.online Sample.world).2.
Proof.
  refine (proj2 (cycle_idempotent Sample.online Sample.world Sample.payload)
                (Rev2.fetchPrices Sample.online 1 Sample.world).2
                (Rev2.fetchPrices Sample.online 1
                   (Rev2.updatePrices Sample.online Sample.world).2).2 _ _).
  - vm_compute. reflexivity.
  - vm_compute. reflexivity.
Defined.

(** X13.  A cycle of the second revision never removes a key of the host
    price table; the keys it adds are the fetched identifiers that the
    read [itemTable[itemId]] finds (in the item table or in
    [Object.prototype]), ["__proto__"] apart.  A cycle of [src/mod.ts]
    leaves the keys as they are. *)
Theorem cycle_keys E arg w prices w1 :
  Rev2.fetchPrices E default_retries w = (Return prices, w1) →
  (∀ itemId,
     itemId ∈ dom (priceTable (Rev2.updatePrices E w).2) ↔
     itemId ∈ dom (priceTable w) ∨
     (itemId ∈ dom prices ∧ visible w itemId = true ∧ itemId ≠ "__proto__")) ∧
  dom (priceTable (updatePrices E arg w).2) = dom (priceTable w).
Proof.
  intros Hfetch. split; [| reflexivity]. intros itemId.
  rewrite !elem_of_dom, (Rev2_updatePrices_lookup _ _ _ _ itemId Hfetch).
  destruct (prices !! itemId) as [fetched |] eqn:Hin.
  - destruct (visible w itemId) eqn:Hvis.
    + rewrite JS_set_same.
      destruct (bool_decide (itemId = "__proto__")) eqn:Hp; simpl.
      * apply bool_decide_eq_true in Hp.
        destruct (bool_decide (priceTable w !! itemId = None)) eqn:Hown.
        -- apply bool_decide_eq_true in Hown. rewrite Hown. split.
           ++ intros [x Hx]. discriminate Hx.
           ++ intros [[x Hx] | (_ & _ & Hne)]; [discriminate Hx | contradiction].
        -- apply bool_decide_eq_false in Hown. split; [| eauto].
           intros _. left. destruct (priceTable w !! itemId); [eauto | contradiction].
      * apply bool_decide_eq_false in Hp. split; [| eauto].
        intros _. right. repeat split; eauto.
    + split; [intros H; left; exact H |].
      intros [H | (_ & Hv & _)]; [exact H | discriminate Hv].
  - split; [intros H; left; exact H |].
    intros [H | ([x Hx] & _)]; [exact H | discriminate Hx].
Qed.

Lemma cycle_keys_witness :
  (∀ itemId,
     itemId ∈ dom (priceTable (Rev2.updatePrices Scenario.pollutedFeed Sample.world).2) ↔
     itemId ∈ dom (priceTable Sample.world) ∨
     (itemId ∈ dom Scenario.polluted ∧ visible Sample.world itemId = true ∧
      itemId ≠ "__proto__")) ∧
  dom (priceTable (updatePrices Scenario.pollutedFeed None Sample.world).2) =
  dom (priceTable Sample.world).
Proof.
  refine (cycle_keys Scenario.pollutedFeed None Sample.world Scenario.polluted
            (Rev2.fetchPrices Scenario.pollutedFeed 1 Sample.world).2 _).
  vm_compute. reflexivity.
Defined.

(** ** The order of the visits *)

Lemma applyEntries_lookup entries :
  ∀ w,
    NoDup entries.*1 →
    loop_frame w (applyEntries entries w) ∧
    ∀ itemId,
      priceTable (applyEntries entries w) !! itemId =
      match (list_to_map entries : gmap string number) !! itemId with
      | Some fetched =>
          if visible w itemId
          then JS.set (priceTable w) itemId (clamped w itemId fetched) !! itemId
          else priceTable w !! itemId
      | None => priceTable w !! itemId
      end.
Proof.
  induction entries as [| [k v] entries IH]; intros w Hnodup.
  - split; [apply loop_frame_refl |]. intros itemId. simpl.
    rewrite lookup_empty. reflexivity.
  - simpl in Hnodup. apply NoDup_cons in Hnodup as [Hfresh Hnodup].
    change (applyEntries ((k, v) :: entries) w)
      with (applyEntries entries (applyItem k v w)).
    destruct (IH (applyItem k v w) Hnodup) as [Hframe Hlook].
    pose proof (applyItem_frame k v w) as Hstep.
    assert (loop_frame w (applyEntries entries (applyItem k v w))) as Hall.
    { destruct Hframe as (Hc & Hi & Ho & Hh), Hstep as (Hc' & Hi' & Ho' & Hh').
      repeat split; congruence. }
    split; [exact Hall |].
    intros itemId. rewrite Hlook. simpl.
    destruct (decide (itemId = k)) as [-> | Hne].
    + rewrite lookup_insert_eq.
      rewrite (not_elem_of_list_to_map_1 _ _ Hfresh).
      apply applyItem_same.
    + rewrite lookup_insert_ne by congruence.
      rewrite (visible_frame w (applyItem k v w) itemId Hstep).
      destruct (list_to_map entries !! itemId) as [fetched |];
        [| apply applyItem_other; assumption].
      destruct (visible w itemId); [| apply applyItem_other; assumption].
      rewrite (clamped_frame w (applyItem k v w) itemId fetched Hstep).
      apply JS_set_same_ext. apply applyItem_other. assumption.
Qed.

(** X14.  The host price table after the loop does not depend on the order in
    which the keys of the fetched prices are visited. *)
Theorem visiting_order_is_irrelevant entries w :
  NoDup entries.*1 →
  priceTable (applyEntries entries w) =
  priceTable (applyPrices (list_to_map entries) w).
Proof.
  intros Hnodup. apply map_eq. intros itemId.
  destruct (applyEntries_lookup entries w Hnodup) as [_ ->].
  destruct (applyPrices_lookup (list_to_map entries) w) as [_ ->].
  reflexivity.
Qed.

Lemma visiting_order_is_irrelevant_witness :
  priceTable (applyEntries Scenario.shuffled Sample.world) =
  priceTable (applyPrices (list_to_map Scenario.shuffled) Sample.world).
Proof.
  refine (visiting_order_is_irrelevant Scenario.shuffled Sample.world _).
  apply (bool_decide_unpack (NoDup Scenario.shuffled.*1)). vm_compute. exact I.
Defined.

(** ** Startup *)

Lemma postDBLoadAsync_cases E now w :
  match readConfig w with
  | Throw error => postDBLoadAsync E now w = (Throw error, w)
  | Return c =>
      postDBLoadAsync E now w =
      (Return (),
       setInterval
         (updatePrices E None (set_originalPrices (priceTable w) (set_config c w))).2)
  end.
Proof.
  unfold postDBLoadAsync. destruct (readConfig w) as [c | error]; reflexivity.
Qed.

Lemma Rev2_postDBLoadAsync_cases E w :
  match readConfig w with
  | Throw error => Rev2.postDBLoadAsync E w = (Throw error, w)
  | Return c =>
      match Rev2.updatePrices E (set_originalPrices (priceTable w) (set_config c w)) with
      | (Return _, w1) => Rev2.postDBLoadAsync E w = (Return (), setInterval w1)
      | (Throw error, w1) => Rev2.postDBLoadAsync E w = (Throw error, w1)
      end
  end.
Proof.
  unfold Rev2.postDBLoadAsync. destruct (readConfig w) as [c | error]; [| reflexivity].
  unfold Rev2.updatePrices.
  destruct (Rev2.fetchPrices _ _ _) as [[prices | error] w1]; reflexivity.
Qed.

Lemma postDBLoadAsync_Return_state E now w after :
  postDBLoadAsync E now w = (Return (), after) →
  ∃ c,
    readConfig w = Return c ∧
    timerActive after = true ∧
    originalPrices after = priceTable w ∧
    maxRetries (config after) = maxRetries c ∧
    maxIncreaseMult (config after) = maxIncreaseMult c.
Proof.
  intros Hret. pose proof (postDBLoadAsync_cases E now w) as Hcases.
  destruct (readConfig w) as [c | error]; [| congruence].
  exists c. split; [reflexivity |].
  rewrite Hcases in Hret. inversion Hret; subst. repeat split.
Qed.

Lemma Rev2_postDBLoadAsync_Return_state E w after :
  Rev2.postDBLoadAsync E w = (Return (), after) →
  ∃ c,
    readConfig w = Return c ∧
    timerActive after = true ∧
    originalPrices after = priceTable w ∧
    maxRetries (config after) = maxRetries c ∧
    maxIncreaseMult (config after) = maxIncreaseMult c.
Proof.
  intros Hret. pose proof (Rev2_postDBLoadAsync_cases E w) as Hcases.
  destruct (readConfig w) as [c | error]; [| congruence].
  exists c. split; [reflexivity |].
  pose proof (Rev2_updatePrices_reference E
                (set_originalPrices (priceTable w) (set_config c w)))
    as (_ & Ho & _ & Hm & Hr).
  destruct (Rev2.updatePrices E _) as [[b | error] w1]; [| congruence].
  rewrite Hcases in Hret. inversion Hret; subst. simpl in *. tauto.
Qed.

(** X15.  A startup that returns has registered the timer; the snapshot it
    took is the host price table as it was before the first cycle, and
    the two configured constants in use are those of the config file.
    This holds of [src/mod.ts] and of the second revision. *)
Theorem startup_registers_timer E w :
  (∀ now after,
     postDBLoadAsync E now w = (Return (), after) →
     timerActive after = true ∧
     originalPrices after = priceTable w ∧
     ∃ c, readConfig w = Return c ∧
          maxRetries (config after) = maxRetries c ∧
          maxIncreaseMult (config after) = maxIncreaseMult c) ∧
  (∀ after,
     Rev2.postDBLoadAsync E w = (Return (), after) →
     timerActive after = true ∧
     originalPrices after = priceTable w ∧
     ∃ c, readConfig w = Return c ∧
          maxRetries (config after) = maxRetries c ∧
          maxIncreaseMult (config after) = maxIncreaseMult c).
Proof.
  split.
  - intros now after Hret.
    destruct (postDBLoadAsync_Return_state _ _ _ _ Hret) as (c & Hc & Ht & Ho & Hr & Hm).
    split; [exact Ht |]. split; [exact Ho |]. exists c. tauto.
  - intros after Hret.
    destruct (Rev2_postDBLoadAsync_Return_state _ _ _ Hret) as (c & Hc & Ht & Ho & Hr & Hm).
    split; [exact Ht |]. split; [exact Ho |]. exists c. tauto.
Qed.

Lemma startup_registers_timer_witness :
  timerActive (Rev2.postDBLoadAsync Sample.online Sample.world).2 = true ∧
  originalPrices (Rev2.postDBLoadAsync Sample.online Sample.world).2 =
  priceTable Sample.world ∧
  ∃ c, readConfig Sample.world = Return c ∧
       maxRetries (config (Rev2.postDBLoadAsync Sample.online Sample.world).2) =
       maxRetries c ∧
       maxIncreaseMult (config (Rev2.postDBLoadAsync Sample.online Sample.world).2) =
       maxIncreaseMult c.
Proof.
  refine (proj2 (startup_registers_timer Sample.online Sample.world)
                (Rev2.postDBLoadAsync Sample.online Sample.world).2 _).
  vm_compute. reflexivity.
Defined.

Lemma Rev2_startup_failure E w error after :
  Rev2.postDBLoadAsync E w = (Throw error, after) →
  priceTable after = priceTable w ∧
  (timerActive w = false → timerActive after = false) ∧
  (∀ error', readConfig w = Throw error' → after = w ∧ error = error').
Proof.
  intros Hthrow. pose proof (Rev2_postDBLoadAsync_cases E w) as Hcases.
  destruct (readConfig w) as [c | error0].
  - unfold Rev2.updatePrices in Hcases.
    pose proof (fetchPrices_same_host E true default_retries
                  (set_originalPrices (priceTable w) (set_config c w))) as (Hp & _).
    pose proof (fetchPrices_timer E true default_retries
                  (set_originalPrices (priceTable w) (set_config c w))) as Htimer.
    rewrite <- Rev2_fetchPrices_eq in Hp, Htimer.
    destruct (Rev2.fetchPrices _ _ _) as [[prices | error1] w1]; [congruence |].
    rewrite Hcases in Hthrow. inversion Hthrow; subst.
    split; [exact Hp |]. split; [| intros error' H; discriminate H].
    intros _. apply (Htimer _ _ eq_refl). reflexivity.
  - rewrite Hcases in Hthrow. inversion Hthrow; subst.
    split; [reflexivity |]. split; [tauto |].
    intros error' H. inversion H. split; reflexivity.
Qed.

(** X16.  A startup that throws leaves the host price table as it was and
    registers no timer; when it is the config file that cannot be read,
    nothing at all has happened.  This holds of [src/mod.ts], where only
    the read of the config file can make the startup throw, and of the
    second revision. *)
Theorem startup_failure E w :
  (∀ now error after,
     postDBLoadAsync E now w = (Throw error, after) →
     priceTable after = priceTable w ∧
     (timerActive w = false → timerActive after = false) ∧
     (∀ error', readConfig w = Throw error' → after = w ∧ error = error')) ∧
  (∀ error after,
     Rev2.postDBLoadAsync E w = (Throw error, after) →
     priceTable after = priceTable w ∧
     (timerActive w = false → timerActive after = false) ∧
     (∀ error', readConfig w = Throw error' → after = w ∧ error = error')).
Proof.
  split; [| intros error after; apply Rev2_startup_failure].
  intros now error after Hthrow.
  pose proof (postDBLoadAsync_cases E now w) as Hcases.
  destruct (readConfig w) as [c | error0]; [congruence |].
  rewrite Hcases in Hthrow. inversion Hthrow; subst.
  split; [reflexivity |]. split; [tauto |].
  intros error' H. inversion H. split; reflexivity.
Qed.

Lemma startup_failure_witness :
  let after := (Rev2.postDBLoadAsync Sample.offline Sample.world).2 in
  priceTable after = priceTable Sample.world ∧
  (timerActive Sample.world = false → timerActive after = false) ∧
  (∀ error', readConfig Sample.world = Throw error' →
             after = Sample.world ∧ NetworkError = error').
Proof.
  refine (proj2 (startup_failure Sample.offline Sample.world) NetworkError
                (Rev2.postDBLoadAsync Sample.offline Sample.world).2 _).
  vm_compute. reflexivity.
Defined.

(** X17.  In the second revision, after a startup that returned, a firing
    of the timer whose [maxRetries + 1] attempts all fail throws, stops
    the timer that the startup registered and leaves the host price table
    as the startup left it. *)
Theorem tick_exhaustion_stops_timer E w w1 c (N : nat) :
  Rev2.postDBLoadAsync E w = (Return (), w1) →
  readConfig w = Return c →
  maxRetries c = Z.of_nat N →
  (∀ i, (i ≤ N)%nat → is_Some (failure (E (netCalls w1 + i)%nat))) →
  ∃ error w2,
    Rev2.updatePrices E w1 = (Throw error, w2) ∧
    timerActive w1 = true ∧
    timerActive w2 = false ∧
    priceTable w2 = priceTable w1 ∧
    netCalls w2 = (netCalls w1 + (N + 1))%nat.
Proof.
  intros Hstart Hc HN Hall.
  destruct (Rev2_postDBLoadAsync_Return_state _ _ _ Hstart) as (c' & Hc' & Ht & _ & Hr & _).
  rewrite Hc in Hc'. inversion Hc'; subst c'.
  destruct (fetchPrices_exhausts E N 1 w1) as (error & w2 & Hf & _ & Hcalls & Hoff);
    [rewrite Hr, HN; lia | exact Hall |].
  exists error, w2.
  rewrite <- Rev2_fetchPrices_eq in Hf.
  rewrite (Rev2_updatePrices_Throw _ _ _ _ Hf).
  pose proof (fetchPrices_same_host E true 1 w1) as (Hp & _).
  rewrite <- Rev2_fetchPrices_eq, Hf in Hp. simpl in Hp.
  repeat split; try assumption. lia.
Qed.

Lemma tick_exhaustion_stops_timer_witness :
  ∃ error w2,
    Rev2.updatePrices Scenario.outage (Rev2.postDBLoadAsync Scenario.outage Sample.world).2
    = (Throw error, w2) ∧
    timerActive (Rev2.postDBLoadAsync Scenario.outage Sample.world).2 = true ∧
    timerActive w2 = false ∧
    priceTable w2 = priceTable (Rev2.postDBLoadAsync Scenario.outage Sample.world).2 ∧
    netCalls w2 = (netCalls (Rev2.postDBLoadAsync Scenario.outage Sample.world).2 + (2 + 1))%nat.
Proof.
  refine (tick_exhaustion_stops_timer Scenario.outage Sample.world
            (Rev2.postDBLoadAsync Scenario.outage Sample.world).2 Sample.cfg 2 _ _ _ _).
  - vm_compute. reflexivity.
  - reflexivity.
  - reflexivity.
  - intros i _. exists NetworkError. vm_compute netCalls.
    unfold failure, Scenario.outage. rewrite Nat.add_1_l. reflexivity.
Defined.

(** ** The log of a fetch that gives up *)

Lemma tryFetch_Throw_log E w error w1 :
  tryFetch E w = (Throw error, w1) → log w1 = log w.
Proof.
  unfold tryFetch.
  destruct (response (E (netCalls w))); [intros H; inversion H; reflexivity .. |].
  destruct (pricesWritable _); [| intros H; inversion H; reflexivity].
  destruct (configWritable _); intros H; inversion H; reflexivity.
Qed.

Lemma fetchPrices_exhausts_log E (n : nat) :
  ∀ retries w,
    Z.to_nat (maxRetries (config w) + 1 - retries) = n →
    (∀ i, (i ≤ n)%nat → is_Some (failure (E (netCalls w + i)%nat))) →
    log (fetchPrices E true retries w).2 = rev (exhaustionLines retries n) ++ log w.
Proof.
  induction n as [| n IH]; intros retries w Hn Hall;
    destruct (Hall 0%nat (Nat.le_0_l _)) as [error Herr];
    rewrite Nat.add_0_r in Herr;
    rewrite (fetchPrices_catch _ _ _ _ Herr);
    pose proof (tryFetch_Throw E (logger FetchingFleaPrices w) error Herr) as Hthrow;
    destruct (tryFetch E (logger FetchingFleaPrices w)) as [r w1] eqn:Htry;
    simpl in Hthrow; subst r;
    pose proof (tryFetch_Throw_log _ _ _ _ Htry) as Hlog;
    destruct (catch_maxRetries _ _ _ _ Htry) as [Hm Hcalls]; simpl in Hlog.
  - assert ((retries <=? maxRetries (config w)) = false) as -> by (apply Z.leb_gt; lia).
    simpl. rewrite Hlog. reflexivity.
  - assert ((retries <=? maxRetries (config w)) = true) as -> by (apply Z.leb_le; lia).
    simpl. rewrite IH; simpl.
    + rewrite Hlog, <- !app_assoc. reflexivity.
    + rewrite Hm. lia.
    + intros i Hi. rewrite Hcalls.
      replace (S (netCalls w) + i)%nat with (netCalls w + S i)%nat by lia.
      apply Hall. lia.
Qed.

(** X18.  With [maxRetries = N], a fetcher whose [N + 1] attempts all fail logs
    "Fetching" before every attempt, "retrying. Attempt #i" for
    [i = 1 .. N] after the first [N] failures and "Retry count reached"
    after the last one, and nothing else. *)
Theorem exhaustion_log E w (N : nat) :
  maxRetries (config w) = Z.of_nat N →
  (∀ i, (i ≤ N)%nat → is_Some (failure (E (netCalls w + i)%nat))) →
  log (fetchPrices E default_fetchPrices default_retries w).2 =
  rev (exhaustionLines 1 N) ++ log w.
Proof.
  intros HN Hall. apply fetchPrices_exhausts_log; [rewrite HN; lia | exact Hall].
Qed.

Lemma exhaustion_log_witness :
  log (fetchPrices Sample.offline true 1 Sample.running).2 =
  [RetryCountReached; FetchingFleaPrices;
   ErrorRetrying 2; FetchingFleaPrices;
   ErrorRetrying 1; FetchingFleaPrices].
Proof.
  refine (exhaustion_log Sample.offline Sample.running 2 _ _).
  - reflexivity.
  - intros i _. eexists. reflexivity.
Defined.

(** ** The fetch that [src/mod.ts] leaves behind *)

Lemma respond_tryFetch E w :
  (0 < netCalls w)%nat →
  respond E w = tryFetch E (set_netCalls (Nat.pred (netCalls w)) w).
Proof.
  destruct w as [c t o p i h cf pf n d l]. simpl. intros Hn.
  destruct n as [| n]; [lia |]. reflexivity.
Qed.

(** Completed where it was started, the call that is not awaited is the
    live fetch. *)
Lemma detachedFetch_request E w :
  detachedFetch E (request w) = fetchPrices E true default_retries w.
Proof.
  rewrite fetchPrices_live_step. unfold detachedFetch.
  rewrite respond_tryFetch by (simpl; lia). reflexivity.
Qed.

(** X19.  In [src/mod.ts] as written an unreachable network does not make
    the startup throw: with [maxRetries = N] and [N + 1] failing attempts,
    [postDBLoadAsync] returns after one request with the timer registered
    and the host price table untouched; the fetch it left behind then
    goes through the remaining attempts, [N + 1] requests in all, cancels
    the timer and ends in a rejection. *)
Theorem as_written_startup_outage E now w c (N : nat) :
  readConfig w = Return c →
  maxRetries c = Z.of_nat N →
  (∀ i, (i ≤ N)%nat → is_Some (failure (E (netCalls w + i)%nat))) →
  ∃ started,
    postDBLoadAsync E now w = (Return (), started) ∧
    timerActive started = true ∧
    priceTable started = priceTable w ∧
    netCalls started = (netCalls w + 1)%nat ∧
    ∃ error settled,
      detachedFetch E started = (Throw error, settled) ∧
      timerActive settled = false ∧
      priceTable settled = priceTable w ∧
      netCalls settled = (netCalls w + (N + 1))%nat.
Proof.
  intros Hc HN Hall.
  pose proof (postDBLoadAsync_cases E now w) as Hcases. rewrite Hc in Hcases.
  rewrite updatePrices_state in Hcases.
  eexists. split; [exact Hcases |]. simpl.
  split; [reflexivity |]. split; [reflexivity |]. split; [lia |].
  set (started := setInterval _).
  assert (netCalls started = S (netCalls w)) as Hn by reflexivity.
  assert (maxRetries (config started) = Z.of_nat N) as Hm by (simpl; exact HN).
  destruct (Hall 0%nat (Nat.le_0_l _)) as [error Herr]. rewrite Nat.add_0_r in Herr.
  unfold detachedFetch. rewrite respond_tryFetch by lia.
  set (pending := set_netCalls (Nat.pred (netCalls started)) started).
  assert (netCalls pending = netCalls w) as Hp by reflexivity.
  pose proof (tryFetch_Throw E pending error) as Hthrow.
  rewrite Hp in Hthrow. specialize (Hthrow Herr).
  pose proof (tryFetch_same_host E pending) as (Htab & _ & _ & _ & _ & Hmax).
  pose proof (tryFetch_netCalls E pending) as Hcalls.
  destruct (tryFetch E pending) as [r w1]. simpl in Hthrow, Htab, Hmax, Hcalls. subst r.
  rewrite Hm. unfold default_retries.
  destruct N as [| n].
  - simpl. exists error. eexists. split; [reflexivity |]. simpl.
    split; [reflexivity |]. split; [exact Htab |]. rewrite Hcalls; rewrite ?Hp; lia.
  - assert ((1 <=? Z.of_nat (S n)) = true) as -> by (apply Z.leb_le; lia).
    destruct (fetchPrices_exhausts E n (1 + 1) (logger (ErrorRetrying 1) w1))
      as (e & settled & Hf & _ & Hsc & Hst).
    + simpl. rewrite Hmax. simpl. rewrite HN. lia.
    + intros i Hi. simpl. rewrite Hcalls; rewrite ?Hp.
      replace (S (netCalls w) + i)%nat with (netCalls w + S i)%nat by lia.
      apply Hall. lia.
    + exists e, settled. split; [exact Hf |]. split; [exact Hst |].
      pose proof (fetchPrices_same_host E true (1 + 1) (logger (ErrorRetrying 1) w1))
        as (Htab' & _).
      rewrite Hf in Htab'. simpl in Htab', Hsc.
      split; [congruence |]. rewrite Hsc, Hcalls; rewrite ?Hp; lia.
Qed.

Lemma as_written_startup_outage_witness :
  ∃ started,
    postDBLoadAsync Sample.offline 1000 Sample.world = (Return (), started) ∧
    timerActive started = true ∧
    priceTable started = priceTable Sample.world ∧
    netCalls started = 1%nat ∧
    ∃ error settled,
      detachedFetch Sample.offline started = (Throw error, settled) ∧
      timerActive settled = false ∧
      priceTable settled = priceTable Sample.world ∧
      netCalls settled = 3%nat.
Proof.
  refine (as_written_startup_outage Sample.offline 1000 Sample.world Sample.cfg 2 _ _ _).
  - reflexivity.
  - reflexivity.
  - intros i _. eexists. reflexivity.
Defined.
